(** * OpenAI-Vision-Telegram-Bot: a shallow embedding of [main.py]

    The bot is a linear pipeline around four third-party services: Pillow
    (image decoding), ImgBB (image hosting, over [requests]), the OpenAI
    chat-completion endpoint and the Telegram bot API.  Every function of
    [main.py] is embedded as a computation in a small monad that threads
    the chronological trace of the calls made to the outside world and
    that can raise a Python exception.  The outside world itself is a
    record of oracles ([Env]) and a class of image operations ([PIL]). *)

From Stdlib Require Import List ZArith NArith String Ascii Bool Lia.
From Stdlib.Strings Require Import Byte.
Import ListNotations.
Open Scope Z_scope.
Set Warnings "-register-all".

(** ** Python values *)

Module Py.

(** A Python [str] is a sequence of Unicode code points. *)
Definition str := list N.

(** A Python [bytes] object. *)
Definition bytes := list byte.

(** An ASCII string literal of the source, as a [str]. *)
Definition lit (s : string) : str :=
  map N_of_ascii (list_ascii_of_string s).
Arguments lit : simpl never.

Definition str_eqb (a b : str) : bool :=
  if list_eq_dec N.eq_dec a b then true else false.

(** The characters [str.strip()] removes: those for which CPython's
    [Py_UNICODE_ISSPACE] holds. *)
Definition isspace (c : N) : bool :=
  (((9 <=? c) && (c <=? 13)) || ((28 <=? c) && (c <=? 32))
   || (c =? 133) || (c =? 160) || (c =? 5760)
   || ((8192 <=? c) && (c <=? 8202))
   || (c =? 8232) || (c =? 8233) || (c =? 8239) || (c =? 8287)
   || (c =? 12288))%N.

Fixpoint lstrip (s : str) : str :=
  match s with
  | c :: rest => if isspace c then lstrip rest else s
  | [] => []
  end.

Definition rstrip (s : str) : str := rev (lstrip (rev s)).

(** [s.strip()] *)
Definition strip (s : str) : str := rstrip (lstrip s).

(** The exceptions of the model, all of them instances of [Exception]
    (what [except Exception] catches).  [LibraryError] stands for any
    exception class of Pillow, requests, openai or telebot. *)
Inductive exn : Type :=
| IndexError
| KeyError (key : str)
| TypeError
| AttributeError
| ValueError
| OverflowError
| LibraryError (name : str).

(** The outcome of evaluating a Python expression or call. *)
Inductive result (A : Type) : Type :=
| Returns (a : A)
| Raises (e : exn).
Arguments Returns {A} a.
Arguments Raises {A} e.

(** What [json.loads] produces, which is also what [upload_image_to_imgbb]
    may return: [None], a bool, an int, a str, a list or a dict (kept as
    the list of its items, keys distinct).  JSON numbers with a fraction
    are left out. *)
Inductive pyval : Type :=
| PNone
| PBool (b : bool)
| PInt (z : Z)
| PStr (s : str)
| PList (l : list pyval)
| PDict (items : list (str * pyval)).

(** Truth value of an object, as [if x:] and [not x] test it. *)
Definition truthy (v : pyval) : bool :=
  match v with
  | PNone => false
  | PBool b => b
  | PInt z => negb (z =? 0)
  | PStr s => match s with [] => false | _ => true end
  | PList l => match l with [] => false | _ => true end
  | PDict d => match d with [] => false | _ => true end
  end.

Fixpoint dict_get (items : list (str * pyval)) (k : str) : option pyval :=
  match items with
  | [] => None
  | (k', v) :: rest => if str_eqb k' k then Some v else dict_get rest k
  end.

(** [v[k]] for a string key [k]: a dict looks the key up and raises
    [KeyError] when it is absent; a list or a str refuses a str index and
    the other objects are not subscriptable ([TypeError]). *)
Definition subscript (v : pyval) (k : str) : result pyval :=
  match v with
  | PDict items =>
      match dict_get items k with
      | Some x => Returns x
      | None => Raises (KeyError k)
      end
  | _ => Raises TypeError
  end.

(** [l[0]] *)
Definition index0 {A} (l : list A) : result A :=
  match l with
  | x :: _ => Returns x
  | [] => Raises IndexError
  end.

(** [l[-1]] *)
Fixpoint index_last {A} (l : list A) : result A :=
  match l with
  | [] => Raises IndexError
  | [x] => Returns x
  | _ :: rest => index_last rest
  end.

(** [range(n)] *)
Definition range (n : Z) : list Z := map Z.of_nat (seq 0 (Z.to_nat n)).

(** *** base64 *)

Definition b64_alphabet : str :=
  lit "ABCDEFGHIJKLMNOPQRSTUVWXYZabcdefghijklmnopqrstuvwxyz0123456789+/".

Definition b64_char (i : N) : N := nth (N.to_nat i) b64_alphabet 0%N.

Definition b64_pad : N := 61%N.

(** [base64.b64encode(data).decode('utf-8')]: the encoding is pure ASCII,
    so decoding it yields the same code points. *)
Fixpoint b64encode (data : bytes) : str :=
  match data with
  | [] => []
  | [x] =>
      let a := Byte.to_N x in
      [b64_char (a / 4); b64_char ((a mod 4) * 16); b64_pad; b64_pad]%N
  | [x; y] =>
      let a := Byte.to_N x in
      let b := Byte.to_N y in
      [b64_char (a / 4); b64_char ((a mod 4) * 16 + b / 16);
       b64_char ((b mod 16) * 4); b64_pad]%N
  | x :: y :: z :: rest =>
      let a := Byte.to_N x in
      let b := Byte.to_N y in
      let c := Byte.to_N z in
      ([b64_char (a / 4); b64_char ((a mod 4) * 16 + b / 16);
        b64_char ((b mod 16) * 4 + c / 64); b64_char (c mod 64)]%N)
        ++ b64encode rest
  end.

End Py.
Import Py.

(** ** The outside world *)

(** *** Pillow *)

(** A decoded image: what the source reads of a [PIL.Image.Image].
    [format] is [None] for an image that was not read from a file (the
    result of [convert]). *)
Record image : Type := {
  format : option str;
  mode : str;
  pixels : bytes;
}.

(** The three Pillow operations of the source.  [Image_open] raises on
    a buffer that is not a recognizable image; it reads lazily, so
    [Image_convert] and [Image_save] can still raise on one it opened. *)
Class PIL : Type := {
  Image_open : bytes -> result image;      (* Image.open(BytesIO(b)) *)
  Image_convert : image -> str -> result image;   (* im.convert(mode) *)
  Image_save : image -> str -> result bytes;
    (* out = BytesIO(); im.save(out, format=f); out.getvalue() *)
}.

Definition RGB : str := lit "RGB".
Definition JPEG : str := lit "JPEG".
Definition WEBP : str := lit "WEBP".
Definition PNG : str := lit "PNG".

(** [image.format == f] *)
Definition format_is (im : image) (f : str) : bool :=
  match format im with
  | Some g => str_eqb g f
  | None => false
  end.

(** What Pillow guarantees of these operations, as far as the pipeline
    relies on it: a converted image has the requested mode; the JPEG
    encoding of an RGB image opens again as an RGB JPEG image, which can
    in turn be converted and encoded. *)
Class PILLaws (P : PIL) : Prop := {
  convert_mode : forall im m im',
    Image_convert im m = Returns im' -> mode im' = m;
  save_jpeg_open : forall im b,
    mode im = RGB -> Image_save im JPEG = Returns b ->
    exists j, Image_open b = Returns j /\ format j = Some JPEG /\ mode j = RGB
      /\ exists j' b', Image_convert j RGB = Returns j'
                       /\ Image_save j' JPEG = Returns b';
}.

(** *** Telegram, ImgBB and OpenAI objects *)

Record PhotoSize : Type := { file_id : str }.
Record Message : Type := { message_id : Z; photo : list PhotoSize }.
Record File : Type := { file_path : str }.

(** The form fields of the ImgBB upload. *)
Record Payload : Type := { key : option str; image_field : str }.

(** A [requests.Response]: [json] is what [response.json()] evaluates to. *)
Record Response : Type := {
  status_code : Z;
  text : str;
  json : result pyval;
}.

(** A chat completion, as far as [response.choices[0].message.content]
    reads it. *)
Record ChatMessage : Type := { content : option str }.
Record Choice : Type := { message : ChatMessage }.
Record ChatCompletion : Type := { choices : list Choice }.

(** *** Events *)

Inductive level : Type := INFO | ERROR.

(** One constructor per [logging] call of the source, with the values its
    f-string interpolates. *)
Inductive log_record : Type :=
| ImgbbStatus (status : Z)
| ImgbbText (body : str)
| ImgbbUploaded (url : pyval)
| ImgbbFailed (status : Z) (body : str)
| ImgbbException (e : exn)
| SendingUrl (image_url : pyval)
| VisionResponse (response : ChatCompletion)
| VisionError (attempt : Z) (e : exn)
| Retrying (delay : Z)
| MaxRetries
| ConvertedWebp
| FormatError (e : exn)
| HandlerError (e : exn).

(** The calls the program makes to the outside world, recorded when they
    are made, whatever their outcome. *)
Inductive event : Type :=
| Log (l : level) (r : log_record)
| GetFile (fid : str)                      (* bot.get_file *)
| DownloadFile (path : str)                (* bot.download_file *)
| ReplyTo (m : Message) (reply : str)      (* bot.reply_to *)
| Post (url : str) (data : Payload)        (* requests.post *)
| ChatCreate (image_url : pyval)           (* client.chat.completions.create *)
| Sleep (delay : Z).                       (* time.sleep *)

Definition trace := list event.

(** The model calls of a trace, the sleeps, the replies and the uploads,
    in order. *)
Definition creates (tr : trace) : list pyval :=
  flat_map (fun ev => match ev with ChatCreate u => [u] | _ => [] end) tr.
Definition sleeps (tr : trace) : list Z :=
  flat_map (fun ev => match ev with Sleep d => [d] | _ => [] end) tr.
Definition replies (tr : trace) : list (Message * str) :=
  flat_map (fun ev => match ev with ReplyTo m s => [(m, s)] | _ => [] end) tr.
Definition posts (tr : trace) : list (str * Payload) :=
  flat_map (fun ev => match ev with Post u p => [(u, p)] | _ => [] end) tr.
Definition get_files (tr : trace) : list str :=
  flat_map (fun ev => match ev with GetFile f => [f] | _ => [] end) tr.
Definition downloads (tr : trace) : list str :=
  flat_map (fun ev => match ev with DownloadFile f => [f] | _ => [] end) tr.

(** *** The environment

    The services answer as the environment decides.  Each oracle is told
    how many calls of its kind were made before this one, so that an
    endpoint may fail twice and then succeed. *)
Record Env : Type := {
  IMGBB_API_KEY : option str;              (* os.getenv("IMGBB_API_KEY") *)
  bot_get_file : nat -> str -> result File;
  bot_download_file : nat -> str -> result bytes;
  bot_reply_to : nat -> Message -> str -> result unit;
  requests_post : nat -> str -> Payload -> result Response;
  chat_completions_create : nat -> pyval -> result ChatCompletion;
}.

(** ** The monad of the program: a trace and an outcome *)

Definition M (A : Type) : Type := trace -> result A * trace.

Definition ret {A} (a : A) : M A := fun tr => (Returns a, tr).

Definition bind {A B} (m : M A) (k : A -> M B) : M B :=
  fun tr =>
    match m tr with
    | (Returns a, tr') => k a tr'
    | (Raises e, tr') => (Raises e, tr')
    end.

(** [raise e] *)
Definition raise {A} (e : exn) : M A := fun tr => (Raises e, tr).

(** A pure expression that may raise. *)
Definition lift {A} (r : result A) : M A := fun tr => (r, tr).

(** [try: m  except Exception as e: h e] *)
Definition try_except {A} (m : M A) (h : exn -> M A) : M A :=
  fun tr =>
    match m tr with
    | (Returns a, tr') => (Returns a, tr')
    | (Raises e, tr') => h e tr'
    end.

(** A call to the outside world: the event is recorded and the oracle,
    which reads the trace before the call, gives the outcome. *)
Definition call {A} (ev : event) (oracle : trace -> result A) : M A :=
  fun tr => (oracle tr, tr ++ [ev]).

Declare Scope py_scope.
Delimit Scope py_scope with py.
Notation "x <- m ;; k" := (bind m (fun x => k))
  (at level 61, m at next level, right associativity) : py_scope.
Notation "m ;; k" := (bind m (fun _ => k))
  (at level 61, right associativity) : py_scope.
Open Scope py_scope.

(** What a statement does to the control flow of the function around it:
    fall through to the next statement, or [return v]. *)
Inductive flow (A : Type) : Type :=
| Next
| Return (v : A).
Arguments Next {A}.
Arguments Return {A} v.

(** ** The program *)

Section Program.

Context {P : PIL} (E : Env).

(** *** Calls to the services *)

Definition logging_info (r : log_record) : M unit :=
  call (Log INFO r) (fun _ => Returns tt).

Definition logging_error (r : log_record) : M unit :=
  call (Log ERROR r) (fun _ => Returns tt).

(** The largest number of seconds [time.sleep] takes: it converts its
    argument to a 64-bit count of nanoseconds, and 9223372037 seconds no
    longer fit. *)
Definition max_sleep : Z := 9223372036.

(** What [time.sleep(secs)] raises, before any sleeping: [OverflowError]
    for a length that does not fit, on either side, and [ValueError] for
    a negative length that does. *)
Definition sleep_error (secs : Z) : option exn :=
  if (secs <? - max_sleep) || (max_sleep <? secs) then Some OverflowError
  else if secs <? 0 then Some ValueError
  else None.

(** [time.sleep(secs)] *)
Definition time_sleep (secs : Z) : M unit :=
  match sleep_error secs with
  | Some e => raise e
  | None => call (Sleep secs) (fun _ => Returns tt)
  end.

Definition get_file (fid : str) : M File :=
  call (GetFile fid) (fun tr => bot_get_file E (List.length (get_files tr)) fid).

Definition download_file (path : str) : M bytes :=
  call (DownloadFile path)
       (fun tr => bot_download_file E (List.length (downloads tr)) path).

Definition reply_to (m : Message) (reply : str) : M unit :=
  call (ReplyTo m reply)
       (fun tr => bot_reply_to E (List.length (replies tr)) m reply).

Definition post (url : str) (data : Payload) : M Response :=
  call (Post url data)
       (fun tr => requests_post E (List.length (posts tr)) url data).

(** [client.chat.completions.create(model="gpt-4o-mini", messages=[...],
    max_tokens=1000)]: the model, the prompt and the token ceiling are
    constants of the source, the image URL is the one argument that
    varies. *)
Definition create (image_url : pyval) : M ChatCompletion :=
  call (ChatCreate image_url)
       (fun tr => chat_completions_create E (List.length (creates tr)) image_url).

(** [content.strip()]: [None] has no [strip]. *)
Definition strip_method (c : option str) : result str :=
  match c with
  | Some s => Returns (strip s)
  | None => Raises AttributeError
  end.

(** *** [upload_image_to_imgbb] (lines 29-60) *)

Definition imgbb_url : str := lit "https://api.imgbb.com/1/upload".

Definition upload_image_to_imgbb (file_data : bytes) : M pyval :=
  try_except
    (image <- lift (Image_open file_data) ;;
     rgb <- lift (Image_convert image RGB) ;;
     output <- lift (Image_save rgb JPEG) ;;
     let encoded_image := b64encode output in
     let url := imgbb_url in
     let payload := {| key := IMGBB_API_KEY E;
                       image_field := encoded_image |} in
     response <- post url payload ;;
     logging_info (ImgbbStatus (status_code response)) ;;
     logging_info (ImgbbText (text response)) ;;
     if status_code response =? 200 then
       result <- lift (json response) ;;
       data <- lift (subscript result (lit "data")) ;;
       u <- lift (subscript data (lit "url")) ;;
       logging_info (ImgbbUploaded u) ;;
       ret u
     else
       logging_error (ImgbbFailed (status_code response) (text response)) ;;
       ret PNone)
    (fun e =>
       logging_error (ImgbbException e) ;;
       ret PNone).

(** *** [analyze_image_openai] (lines 64-101) *)

(** The [try] block of one attempt (lines 67-92). *)
Definition attempt (image_url : pyval) : M (flow (option str)) :=
  logging_info (SendingUrl image_url) ;;
  response <- create image_url ;;
  logging_info (VisionResponse response) ;;
  choice <- lift (index0 (choices response)) ;;
  stripped <- lift (strip_method (content (message choice))) ;;
  ret (Return (Some stripped)).

(** The [except] block of attempt number [attempt_no] (lines 94-101). *)
Definition attempt_failed (retries delay attempt_no : Z) (e : exn)
  : M (flow (option str)) :=
  logging_error (VisionError (attempt_no + 1) e) ;;
  if attempt_no <? retries - 1 then
    logging_info (Retrying delay) ;;
    time_sleep delay ;;
    ret Next
  else
    logging_error MaxRetries ;;
    ret (Return None).

(** [for attempt in attempts: ...]; a loop that runs out of attempts
    falls off the end of the function, which returns [None]. *)
Fixpoint analyze_loop (image_url : pyval) (retries delay : Z)
  (attempts : list Z) : M (option str) :=
  match attempts with
  | [] => ret None
  | attempt_no :: rest =>
      f <- try_except (attempt image_url)
                      (attempt_failed retries delay attempt_no) ;;
      match f with
      | Return v => ret v
      | Next => analyze_loop image_url retries delay rest
      end
  end.

Definition analyze_image_openai (image_url : pyval) (retries delay : Z)
  : M (option str) :=
  analyze_loop image_url retries delay (range retries).

(** *** [handle_photo] (lines 106-140) *)

Definition msg_format_failure : str :=
  lit "Failed to process the image format.".
Definition msg_upload_failure : str :=
  lit "Failed to upload image to ImgBB.".
Definition msg_analysis_failure : str :=
  lit "Failed to analyze image using OpenAI Vision API.".
Definition msg_generic_failure : str :=
  lit "Failed to process the image.".
(** ["Image analysis result:\n"] *)
Definition label : str := lit "Image analysis result:" ++ [10%N].

(** Lines 109-110: download the last (largest) photo variant. *)
Definition download_photo (m : Message) : M bytes :=
  p <- lift (index_last (photo m)) ;;
  file_info <- get_file (file_id p) ;;
  download_file (file_path file_info).

(** Lines 113-123, the inlined conversion step.  It yields the value of
    [file_data] with which the handler goes on, or [None] when the
    [except] block has replied and returned. *)
Definition convert_step (m : Message) (file_data : bytes)
  : M (option bytes) :=
  try_except
    (image <- lift (Image_open file_data) ;;
     if format_is image WEBP then
       rgb <- lift (Image_convert image RGB) ;;
       output <- lift (Image_save rgb JPEG) ;;
       logging_info ConvertedWebp ;;
       ret (Some output)
     else
       ret (Some file_data))
    (fun e =>
       logging_error (FormatError e) ;;
       reply_to m msg_format_failure ;;
       ret None).

(** [if analysis_result:] *)
Definition truthy_text (r : option str) : bool :=
  match r with
  | Some (_ :: _) => true
  | _ => false
  end.

(** [f"{analysis_result}"] *)
Definition format_text (r : option str) : str :=
  match r with
  | Some t => t
  | None => lit "None"
  end.

(** Lines 126-136: upload, analyze with the default [retries=3] and
    [delay=2], reply. *)
Definition upload_and_analyze (m : Message) (file_data : bytes) : M unit :=
  image_url <- upload_image_to_imgbb file_data ;;
  if negb (truthy image_url) then
    reply_to m msg_upload_failure
  else
    analysis_result <- analyze_image_openai image_url 3 2 ;;
    if truthy_text analysis_result then
      reply_to m (label ++ format_text analysis_result)
    else
      reply_to m msg_analysis_failure.

(** The outer [try] block (lines 108-136). *)
Definition handle_photo_body (m : Message) : M unit :=
  file_data <- download_photo m ;;
  converted <- convert_step m file_data ;;
  match converted with
  | None => ret tt
  | Some file_data => upload_and_analyze m file_data
  end.

Definition handle_photo (m : Message) : M unit :=
  try_except
    (handle_photo_body m)
    (fun e =>
       logging_error (HandlerError e) ;;
       reply_to m msg_generic_failure).

End Program.

(** ** The Normalizer of the specification *)

Section Specification.

Context {P : PIL}.

(** Section 4.1 of the specification, in its words: decode; if the
    decoded format is not already the canonical form (JPEG), convert the
    color mode to 3-channel RGB and re-encode as JPEG; for canonical
    input the conversion is a no-op.  A buffer that is not a recognizable
    image is a decode error. *)
Definition Normalizer (file_data : bytes) : result bytes :=
  match Image_open file_data with
  | Raises e => Raises e
  | Returns image =>
      if format_is image JPEG then Returns file_data
      else
        match Image_convert image RGB with
        | Raises e => Raises e
        | Returns rgb => Image_save rgb JPEG
        end
  end.

(** The bytes [upload_image_to_imgbb] encodes for the host (lines 32-35). *)
Definition reencode (file_data : bytes) : result bytes :=
  match Image_open file_data with
  | Raises e => Raises e
  | Returns image =>
      match Image_convert image RGB with
      | Raises e => Raises e
      | Returns rgb => Image_save rgb JPEG
      end
  end.

End Specification.

(** ** Notions for the statements *)

Section Statements.

Context {P : PIL} (E : Env).

(** The form the source posts for the JPEG bytes [out]. *)
Definition payload_of (out : bytes) : Payload :=
  {| key := IMGBB_API_KEY E; image_field := b64encode out |}.

(** [response.json()['data']['url']] *)
Definition data_url (response : Response) : result pyval :=
  match json response with
  | Raises e => Raises e
  | Returns result =>
      match subscript result (lit "data") with
      | Raises e => Raises e
      | Returns data => subscript data (lit "url")
      end
  end.

(** What the uploader does after a response has arrived (lines 48-57). *)
Definition after_response (response : Response) : result pyval * trace :=
  let seen := [Log INFO (ImgbbStatus (status_code response));
               Log INFO (ImgbbText (text response))] in
  if status_code response =? 200 then
    match data_url response with
    | Returns u => (Returns u, seen ++ [Log INFO (ImgbbUploaded u)])
    | Raises e => (Returns PNone, seen ++ [Log ERROR (ImgbbException e)])
    end
  else
    (Returns PNone,
     seen ++ [Log ERROR (ImgbbFailed (status_code response) (text response))]).

(** The three ways in which the host fails an upload: the POST raises;
    the status is not 200; the status is 200 and the body is JSON without
    a nested [data.url]. *)
Definition host_fails (answer : result Response) : Prop :=
  (exists e, answer = Raises e)
  \/ (exists r, answer = Returns r /\ status_code r <> 200)
  \/ (exists r body e, answer = Returns r /\ status_code r = 200
                       /\ json r = Returns body /\ data_url r = Raises e).

(** Claim C3 in the words of the specification: the conversion step of
    the dispatcher passes on what the Normalizer produces. *)
Definition same_conversion_semantics : Prop :=
  forall m file_data tr out,
    Normalizer file_data = Returns out ->
    exists tr', convert_step E m file_data tr = (Returns (Some out), tr').

(** Claim C8 in the words of the specification: no exception leaves the
    handler. *)
Definition never_propagates : Prop :=
  forall m tr, exists tr', handle_photo E m tr = (Returns tt, tr').

End Statements.

(** ** Test doubles *)

Module Mock.

(** A miniature image codec: a buffer is a magic byte (the format), a
    byte for the color mode and the pixel data. *)
Definition format_of_magic (b : byte) : option str :=
  match b with
  | xff => Some JPEG
  | x89 => Some PNG
  | "R"%byte => Some WEBP
  | _ => None
  end.

Definition mode_of_byte (b : byte) : str :=
  match b with
  | x00 => RGB
  | x01 => lit "RGBA"
  | x02 => lit "P"
  | _ => lit "L"
  end.

Definition open (b : bytes) : result image :=
  match b with
  | magic :: m :: px =>
      match format_of_magic magic with
      | Some f => Returns {| format := Some f; mode := mode_of_byte m;
                             pixels := px |}
      | None => Raises (LibraryError (lit "UnidentifiedImageError"))
      end
  | _ => Raises (LibraryError (lit "UnidentifiedImageError"))
  end.

Definition convert (im : image) (m : str) : result image :=
  Returns {| format := None; mode := m; pixels := pixels im |}.

Definition save (im : image) (f : str) : result bytes :=
  if str_eqb f JPEG && str_eqb (mode im) RGB then
    Returns (xff :: x00 :: pixels im)
  else Raises (LibraryError (lit "OSError")).

Definition pil : PIL :=
  {| Image_open := open; Image_convert := convert; Image_save := save |}.

(** Three buffers of the miniature codec. *)
Definition png_buffer : bytes := [x89; x01; x2a].
Definition webp_buffer : bytes := ["R"%byte; x01; x2a].
Definition jpeg_buffer : bytes := [xff; x00; x2a].
Definition garbage_buffer : bytes := [x00].

Definition network_error : exn := LibraryError (lit "ConnectionError").

(** A scripted environment: Telegram delivers [file_data], the host
    answers [post_answer], the model answers its [k]-th call with
    [create_answer k] and Telegram answers the [k]-th reply with
    [reply_answer k]. *)
Definition env (file_data : result bytes) (post_answer : result Response)
  (create_answer : nat -> result ChatCompletion)
  (reply_answer : nat -> result unit) : Env :=
  {| IMGBB_API_KEY := Some (lit "k");
     bot_get_file := fun _ _ => Returns {| file_path := lit "photos/1.jpg" |};
     bot_download_file := fun _ _ => file_data;
     bot_reply_to := fun k _ _ => reply_answer k;
     requests_post := fun _ _ _ => post_answer;
     chat_completions_create := fun k _ => create_answer k |}.

Definition msg : Message :=
  {| message_id := 7; photo := [{| file_id := lit "small" |};
                               {| file_id := lit "large" |}] |}.

Definition url_xy : str := lit "https://x/y.jpg".

(** HTTP 200 with [{"data": {"url": "https://x/y.jpg"}}]. *)
Definition ok_response : Response :=
  {| status_code := 200;
     text := lit "{data:{url:https://x/y.jpg}}";
     json := Returns (PDict [(lit "data", PDict [(lit "url", PStr url_xy)])]) |}.

Definition bad_request : Response :=
  {| status_code := 400; text := lit "Bad Request";
     json := Raises (LibraryError (lit "JSONDecodeError")) |}.

Definition completion (s : str) : ChatCompletion :=
  {| choices := [{| message := {| content := Some s |} |}] |}.

(** The model endpoint that fails twice and then describes a cat. *)
Definition fails_twice (k : nat) : result ChatCompletion :=
  match k with
  | 0%nat | 1%nat => Raises network_error
  | _ => Returns (completion (lit " a cat. "))
  end.

Definition always_fails (k : nat) : result ChatCompletion :=
  Raises network_error.

Definition replies_ok (k : nat) : result unit := Returns tt.
Definition replies_fail (k : nat) : result unit := Raises network_error.

(** Everything works: a PNG arrives, the host stores it, the model
    answers at its third call. *)
Definition happy : Env :=
  env (Returns png_buffer) (Returns ok_response) fails_twice replies_ok.

(** The same with a WebP photo. *)
Definition happy_webp : Env :=
  env (Returns webp_buffer) (Returns ok_response) fails_twice replies_ok.

(** The model answers with blanks only. *)
Definition blank : Env :=
  env (Returns png_buffer) (Returns ok_response)
      (fun _ => Returns (completion (lit "   "))) replies_ok.

(** Telegram delivers bytes that are no image. *)
Definition garbage : Env :=
  env (Returns garbage_buffer) (Returns ok_response) fails_twice replies_ok.

(** The download fails; replies are delivered. *)
Definition no_download : Env :=
  env (Raises network_error) (Returns ok_response) fails_twice replies_ok.

(** The network is down: neither downloads nor replies go through. *)
Definition offline : Env :=
  env (Raises network_error) (Raises network_error) always_fails replies_fail.

(** The host refuses the upload. *)
Definition refused : Env :=
  env (Returns png_buffer) (Returns bad_request) fails_twice replies_ok.

(** The model never answers. *)
Definition mute : Env :=
  env (Returns png_buffer) (Returns ok_response) always_fails replies_ok.

(** The trace of a run on [msg] once the photo is downloaded, once the
    re-encoded PNG is uploaded, and once the model has answered at its
    third call ([happy]) or at its first ([blank]). *)
Definition downloaded : trace :=
  [GetFile (lit "large"); DownloadFile (lit "photos/1.jpg")].

Definition uploaded : trace :=
  downloaded
    ++ [Post imgbb_url {| key := Some (lit "k"); image_field := lit "/wAq" |};
        Log INFO (ImgbbStatus 200);
        Log INFO (ImgbbText (text ok_response));
        Log INFO (ImgbbUploaded (PStr url_xy))].

Definition failed_call (n : Z) : trace :=
  [Log INFO (SendingUrl (PStr url_xy)); ChatCreate (PStr url_xy);
   Log ERROR (VisionError n network_error); Log INFO (Retrying 2); Sleep 2].

Definition analyzed : trace :=
  uploaded ++ failed_call 1 ++ failed_call 2
    ++ [Log INFO (SendingUrl (PStr url_xy)); ChatCreate (PStr url_xy);
        Log INFO (VisionResponse (completion (lit " a cat. ")))].

Definition analyzed_blank : trace :=
  uploaded
    ++ [Log INFO (SendingUrl (PStr url_xy)); ChatCreate (PStr url_xy);
        Log INFO (VisionResponse (completion (lit "   ")))].

End Mock.

(** ** The [/start] command (lines 144-146) *)

Section Commands.

Context (E : Env).

(** The instruction text of line 146; its apostrophe is U+2019. *)
Definition msg_start : str :=
  lit "Send me an image (JPG or WebP), and I" ++ [8217%N]
    ++ lit "ll analyze it for you.".

Definition start (m : Message) : M unit :=
  reply_to E m msg_start.

End Commands.

(** ** Notions for the statements about whole runs *)

(** A string made of whitespace only. *)
Definition all_space (s : str) : bool := forallb isspace s.


(** The text an answer of the model endpoint carries, where line 92 finds
    it: in the first choice of a completion.  An answer without one (the
    call raised, [choices] is empty, [content] is [None]) makes the
    attempt end in the [except] block. *)
Definition text_of (answer : result ChatCompletion) : option str :=
  match answer with
  | Returns r =>
      match choices r with
      | c :: _ => content (message c)
      | [] => None
      end
  | Raises _ => None
  end.

(** The texts [handle_photo] replies with: four fixed messages, and the
    label followed by a non-empty stripped text. *)
Definition reply_text (s : str) : Prop :=
  s = msg_format_failure \/ s = msg_upload_failure
  \/ s = msg_analysis_failure \/ s = msg_generic_failure
  \/ exists t, t <> [] /\ strip t = t /\ s = label ++ t.

(** The last element of a list, when there is one. *)
Definition last_file_id (m : Message) : list str :=
  match index_last (photo m) with
  | Returns p => [file_id p]
  | Raises _ => []
  end.

(** Events that concern neither Telegram nor the image host. *)
Definition quiet (new : trace) : Prop :=
  replies new = [] /\ posts new = [] /\ get_files new = []
  /\ downloads new = [].

(** Events that are no calls at all: log lines. *)
Definition silent (new : trace) : Prop :=
  quiet new /\ creates new = [] /\ sleeps new = [].

(** What a run of [handle_photo] on [m] has done when it comes to its
    first reply: it has asked Telegram for the last photo variant only
    and downloaded at most one file, posted at most once, to ImgBB, and
    called the model at most three times, with one URL, sleeping 2
    seconds between the calls. *)
Definition before_reply {P : PIL} (E : Env) (m : Message) (pre : trace)
  : Prop :=
  replies pre = []
  /\ get_files pre = last_file_id m
  /\ (List.length (downloads pre) <= 1)%nat
  /\ (posts pre = [] \/ exists out, posts pre = [(imgbb_url, payload_of E out)])
  /\ exists v c j,
       creates pre = repeat v c /\ (c <= 3)%nat
       /\ sleeps pre = repeat 2 j /\ (j <= c - 1)%nat.

(** ** Bytes that fail to decode *)

(** The downloaded bytes fail to decode as an image: they do not open,
    or they open (Pillow reads the header only) and raise when the
    pixels are loaded, at [convert]. *)
Definition decode_fails {P : PIL} (file_data : bytes) (e : exn) : Prop :=
  Image_open file_data = Raises e
  \/ exists im, Image_open file_data = Returns im
                /\ Image_convert im RGB = Raises e.

(** Whether the conversion step of the handler is where the buffer is
    decoded: it is for a buffer that does not open and for one that
    opens as WebP; the others are decoded inside the uploader. *)
Definition decoded_by_handler {P : PIL} (file_data : bytes) : bool :=
  match Image_open file_data with
  | Raises _ => true
  | Returns im => format_is im WEBP
  end.

(** Claim C7 in the words of the specification: for bytes that fail to
    decode the handler answers with the format-failure message, at the
    conversion step, before any call of the uploader. *)
Definition undecodable_never_uploaded {P : PIL} (E : Env) : Prop :=
  forall m tr file_data tr1 e,
    download_photo E m tr = (Returns file_data, tr1) ->
    decode_fails file_data e ->
    exists o rest,
      handle_photo E m tr
      = (o, tr1 ++ Log ERROR (FormatError e)
                :: ReplyTo m msg_format_failure :: rest).

(** ** The base64 alphabet, read backwards *)

Fixpoint index_of (c : N) (l : list N) (i : N) : option N :=
  match l with
  | [] => None
  | x :: r => if (x =? c)%N then Some i else index_of c r (i + 1)%N
  end.

(** The sextet a character of the alphabet stands for. *)
Definition b64_index (c : N) : option N := index_of c b64_alphabet 0%N.

(** ** More test doubles *)

Module Mock2.

(** A codec that decodes lazily, as Pillow does: a buffer with a header
    and no pixel data opens, and fails when the pixels are needed. *)
Definition convert (im : image) (m : str) : result image :=
  match pixels im with
  | [] => Raises (LibraryError (lit "OSError: image file is truncated"))
  | _ => Mock.convert im m
  end.

Definition pil : PIL :=
  {| Image_open := Mock.open; Image_convert := convert;
     Image_save := Mock.save |}.

Definition truncated_webp : bytes := ["R"%byte; x01].
Definition truncated_png : bytes := [x89; x01].

(** HTTP 200 with a body that is not JSON. *)
Definition html_page : Response :=
  {| status_code := 200; text := lit "<html>";
     json := Raises (LibraryError (lit "JSONDecodeError")) |}.

(** HTTP 200 with [{"data": {"url": null}}]. *)
Definition null_url : Response :=
  {| status_code := 200; text := lit "{data:{url:null}}";
     json := Returns (PDict [(lit "data", PDict [(lit "url", PNone)])]) |}.

Definition unparsable : Env :=
  Mock.env (Returns Mock.png_buffer) (Returns html_page)
           Mock.fails_twice Mock.replies_ok.

Definition without_url : Env :=
  Mock.env (Returns Mock.png_buffer) (Returns null_url)
           Mock.fails_twice Mock.replies_ok.

Definition truncated_webp_photo : Env :=
  Mock.env (Returns truncated_webp) (Returns Mock.ok_response)
           Mock.fails_twice Mock.replies_ok.

Definition truncated_png_photo : Env :=
  Mock.env (Returns truncated_png) (Returns Mock.ok_response)
           Mock.fails_twice Mock.replies_ok.

(** A message that carries no photo variant. *)
Definition empty_msg : Message := {| message_id := 8; photo := [] |}.

(** The trace of a run on [Mock.msg] once the host has refused the
    upload ([Mock.refused]), and once the model has failed three times
    ([Mock.mute]). *)
Definition refused_upload : trace :=
  Mock.downloaded
    ++ [Post imgbb_url {| key := Some (lit "k"); image_field := lit "/wAq" |};
        Log INFO (ImgbbStatus 400);
        Log INFO (ImgbbText (lit "Bad Request"));
        Log ERROR (ImgbbFailed 400 (lit "Bad Request"))].

Definition given_up : trace :=
  Mock.uploaded ++ Mock.failed_call 1 ++ Mock.failed_call 2
    ++ [Log INFO (SendingUrl (PStr Mock.url_xy));
        ChatCreate (PStr Mock.url_xy);
        Log ERROR (VisionError 3 Mock.network_error);
        Log ERROR MaxRetries].

End Mock2.

(** * Properties *)

Example strip_example : strip (lit "  a cat. ") = lit "a cat.".
Proof. reflexivity. Qed.

Example b64encode_example :
  b64encode ["M"; "a"; "n"]%byte = lit "TWFu"
  /\ b64encode ["M"; "a"]%byte = lit "TWE="
  /\ b64encode ["M"]%byte = lit "TQ==".
Proof. repeat split. Qed.

(** ** Traces *)

Lemma creates_app (a b : trace) : creates (a ++ b) = creates a ++ creates b.
Proof. apply flat_map_app. Qed.

Lemma sleeps_app (a b : trace) : sleeps (a ++ b) = sleeps a ++ sleeps b.
Proof. apply flat_map_app. Qed.

Lemma replies_app (a b : trace) : replies (a ++ b) = replies a ++ replies b.
Proof. apply flat_map_app. Qed.

Lemma posts_app (a b : trace) : posts (a ++ b) = posts a ++ posts b.
Proof. apply flat_map_app. Qed.

Lemma get_files_app (a b : trace) :
  get_files (a ++ b) = get_files a ++ get_files b.
Proof. apply flat_map_app. Qed.

Lemma downloads_app (a b : trace) :
  downloads (a ++ b) = downloads a ++ downloads b.
Proof. apply flat_map_app. Qed.

Lemma creates_cons ev (tr : trace) :
  creates (ev :: tr)
  = match ev with ChatCreate u => [u] | _ => [] end ++ creates tr.
Proof. reflexivity. Qed.

Lemma sleeps_cons ev (tr : trace) :
  sleeps (ev :: tr) = match ev with Sleep d => [d] | _ => [] end ++ sleeps tr.
Proof. reflexivity. Qed.

Lemma replies_cons ev (tr : trace) :
  replies (ev :: tr)
  = match ev with ReplyTo m s => [(m, s)] | _ => [] end ++ replies tr.
Proof. reflexivity. Qed.

Lemma posts_cons ev (tr : trace) :
  posts (ev :: tr)
  = match ev with Post u p => [(u, p)] | _ => [] end ++ posts tr.
Proof. reflexivity. Qed.

Lemma get_files_cons ev (tr : trace) :
  get_files (ev :: tr)
  = match ev with GetFile f => [f] | _ => [] end ++ get_files tr.
Proof. reflexivity. Qed.

Lemma downloads_cons ev (tr : trace) :
  downloads (ev :: tr)
  = match ev with DownloadFile f => [f] | _ => [] end ++ downloads tr.
Proof. reflexivity. Qed.

Lemma creates_nil : creates [] = [].
Proof. reflexivity. Qed.

Lemma sleeps_nil : sleeps [] = [].
Proof. reflexivity. Qed.

Lemma replies_nil : replies [] = [].
Proof. reflexivity. Qed.

Lemma posts_nil : posts [] = [].
Proof. reflexivity. Qed.

Lemma get_files_nil : get_files [] = [].
Proof. reflexivity. Qed.

Lemma downloads_nil : downloads [] = [].
Proof. reflexivity. Qed.

Create Rewrite HintDb trace.
#[local] Hint Rewrite creates_cons sleeps_cons replies_cons posts_cons
  get_files_cons downloads_cons : trace.
#[local] Hint Rewrite creates_nil sleeps_nil replies_nil posts_nil
  get_files_nil downloads_nil : trace.
#[local] Hint Rewrite creates_app sleeps_app replies_app posts_app
  get_files_app downloads_app : trace.
#[local] Hint Rewrite <- app_assoc : trace.
#[local] Hint Rewrite app_nil_r Nat.add_0_r : trace.

(** Normalize a trace [((tr ++ [a]) ++ [b])] to [tr ++ [a; b]] and the
    projections of a trace that ends in known events. *)
Ltac trace_simpl :=
  repeat (autorewrite with trace; cbn [app]).

(** ** [str.strip] *)

Lemma lstrip_spaces pre s :
  all_space pre = true -> lstrip (pre ++ s) = lstrip s.
Proof.
  induction pre as [|c pre IH]; cbn; [reflexivity|].
  intros H. apply andb_prop in H. destruct H as [Hc Hpre].
  rewrite Hc. auto.
Qed.

Lemma lstrip_decomp s :
  exists pre, s = pre ++ lstrip s /\ all_space pre = true.
Proof.
  induction s as [|c s (pre & Hs & Hpre)]; [exists []; auto|].
  cbn [lstrip]. destruct (isspace c) eqn:Hc.
  - exists (c :: pre). unfold all_space in *. cbn. rewrite Hc, Hpre.
    split; [f_equal; exact Hs|auto].
  - exists []. auto.
Qed.

Lemma lstrip_head s c r : lstrip s = c :: r -> isspace c = false.
Proof.
  induction s as [|d s IH]; cbn; [discriminate|].
  destruct (isspace d) eqn:Hd; [exact IH|].
  intros H. inversion H; subst. exact Hd.
Qed.

Lemma lstrip_nonspace c r : isspace c = false -> lstrip (c :: r) = c :: r.
Proof. intros H. cbn. rewrite H. reflexivity. Qed.

Lemma lstrip_snoc_nonspace x c :
  isspace c = false -> exists w, lstrip (x ++ [c]) = w ++ [c].
Proof.
  intros Hc. induction x as [|d x [w Hw]]; cbn.
  - rewrite Hc. exists []. reflexivity.
  - destruct (isspace d); [exists w; exact Hw|].
    exists (d :: x). reflexivity.
Qed.

Lemma rstrip_decomp s :
  exists post, s = rstrip s ++ post /\ all_space post = true.
Proof.
  unfold rstrip. destruct (lstrip_decomp (rev s)) as (pre & Hs & Hpre).
  exists (rev pre). split.
  - rewrite <- rev_app_distr, <- Hs, rev_involutive. reflexivity.
  - unfold all_space in *. rewrite forallb_forall in *.
    intros x Hx. apply Hpre. apply in_rev. exact Hx.
Qed.

(** The stripped string is empty, or begins and ends with characters that
    are not whitespace. *)
Lemma strip_ends s :
  strip s = []
  \/ exists c mid d, (strip s = c :: mid /\ isspace c = false)
                     /\ exists init, strip s = init ++ [d]
                                     /\ isspace d = false.
Proof.
  unfold strip, rstrip. destruct (lstrip s) as [|c r] eqn:Hl; [left; reflexivity|].
  right. pose proof (lstrip_head _ _ _ Hl) as Hc.
  cbn [rev]. destruct (lstrip_snoc_nonspace (rev r) c Hc) as [w Hw].
  rewrite Hw, rev_app_distr. cbn [rev app].
  destruct w as [|d w'] eqn:Ew.
  - exists c, [], c. split; [auto|]. exists []. auto.
  - pose proof (lstrip_head _ _ _ Hw) as Hd.
    exists c, (rev w' ++ [d]), d. split; [cbn; auto|].
    exists (c :: rev w'). split; [reflexivity|exact Hd].
Qed.

Lemma strip_idempotent s : strip (strip s) = strip s.
Proof.
  destruct (strip_ends s) as [H | (c & mid & d & [Hh Hc] & init & Hi & Hd)].
  - rewrite H. reflexivity.
  - unfold strip at 1. rewrite Hh, (lstrip_nonspace _ _ Hc), <- Hh.
    unfold rstrip. rewrite Hi, rev_app_distr. cbn [rev app].
    rewrite (lstrip_nonspace _ _ Hd).
    change (d :: rev init) with (rev [d] ++ rev init).
    rewrite <- rev_app_distr, rev_involutive. reflexivity.
Qed.

Lemma strip_empty_iff s : strip s = [] <-> all_space s = true.
Proof.
  split.
  - intros H. destruct (lstrip_decomp s) as (pre & Hs & Hpre).
    destruct (lstrip s) as [|c r] eqn:Hl.
    + rewrite Hs, app_nil_r. exact Hpre.
    + exfalso. pose proof (lstrip_head _ _ _ Hl) as Hc.
      unfold strip, rstrip in H. rewrite Hl in H. cbn [rev] in H.
      destruct (lstrip_snoc_nonspace (rev r) c Hc) as [w Hw].
      rewrite Hw, rev_app_distr in H. discriminate H.
  - intros H. unfold strip.
    rewrite <- (app_nil_r s), (lstrip_spaces _ _ H). reflexivity.
Qed.

(** A string is its stripped part between two runs of whitespace. *)
Lemma strip_decomp s :
  exists pre post,
    s = pre ++ strip s ++ post
    /\ all_space pre = true /\ all_space post = true.
Proof.
  destruct (lstrip_decomp s) as (pre & Hs & Hpre).
  destruct (rstrip_decomp (lstrip s)) as (post & Hr & Hpost).
  exists pre, post. unfold strip. rewrite <- Hr. auto.
Qed.

Section Analyzer.

Context (E : Env).









End Analyzer.



Section Uploader.

Context {P : PIL} (E : Env).

Lemma reencode_inv file_data out :
  reencode file_data = Returns out ->
  exists im rgb, Image_open file_data = Returns im
                 /\ Image_convert im RGB = Returns rgb
                 /\ Image_save rgb JPEG = Returns out.
Proof.
  unfold reencode. intros H.
  destruct (Image_open file_data) as [im|]; [|discriminate].
  destruct (Image_convert im RGB) as [rgb|] eqn:Hc; [|discriminate].
  exists im, rgb. auto.
Qed.

(** A buffer that cannot be re-encoded never reaches the host. *)
Lemma upload_not_encodable file_data e tr :
  reencode file_data = Raises e ->
  upload_image_to_imgbb E file_data tr
  = (Returns PNone, tr ++ [Log ERROR (ImgbbException e)]).
Proof.
  unfold reencode, upload_image_to_imgbb, try_except, bind, lift.
  intros H.
  destruct (Image_open file_data) as [im|e1].
  - destruct (Image_convert im RGB) as [rgb|e2].
    + rewrite H. reflexivity.
    + inversion H; subst. reflexivity.
  - inversion H; subst. reflexivity.
Qed.

(** A buffer that can be re-encoded is posted once, and the answer of the
    host decides the result. *)
Lemma upload_encodable file_data out tr :
  reencode file_data = Returns out ->
  upload_image_to_imgbb E file_data tr
  = match requests_post E (List.length (posts tr)) imgbb_url (payload_of E out)
    with
    | Raises e =>
        (Returns PNone,
         tr ++ [Post imgbb_url (payload_of E out); Log ERROR (ImgbbException e)])
    | Returns response =>
        (fst (after_response response),
         tr ++ Post imgbb_url (payload_of E out) :: snd (after_response response))
    end.
Proof.
  intros H. destruct (reencode_inv _ _ H) as (im & rgb & Ho & Hc & Hs).
  unfold upload_image_to_imgbb, try_except, bind, lift, post, call.
  rewrite Ho, Hc, Hs. fold (payload_of E out).
  destruct (requests_post E _ imgbb_url (payload_of E out)) as [response|e].
  - unfold after_response, data_url, logging_info, logging_error, call, ret.
    destruct (status_code response =? 200).
    + destruct (json response) as [result|e].
      * destruct (subscript result (lit "data")) as [data|e].
        -- destruct (subscript data (lit "url")) as [u|e];
             cbn [fst snd]; trace_simpl; reflexivity.
        -- cbn [fst snd]; trace_simpl; reflexivity.
      * cbn [fst snd]; trace_simpl; reflexivity.
    + cbn [fst snd]. trace_simpl. reflexivity.
  - unfold logging_error, call, ret. trace_simpl. reflexivity.
Qed.

(** C4. For every image buffer, when the host answers the upload with
    status 200 and a JSON body whose [data.url] is the string [u],
    [upload_image_to_imgbb] returns exactly [u]. *)
Theorem upload_returns_data_url file_data out tr response body data u :
  reencode file_data = Returns out ->
  requests_post E (List.length (posts tr)) imgbb_url (payload_of E out)
  = Returns response ->
  status_code response = 200 ->
  json response = Returns body ->
  subscript body (lit "data") = Returns data ->
  subscript data (lit "url") = Returns (PStr u) ->
  exists new,
    upload_image_to_imgbb E file_data tr = (Returns (PStr u), tr ++ new)
    /\ posts new = [(imgbb_url, payload_of E out)].
Proof.
  intros Hre Hpost Hst Hj Hd Hu.
  rewrite (upload_encodable _ _ _ Hre), Hpost.
  unfold after_response, data_url. rewrite Hst, Hj, Hd, Hu.
  cbn [Z.eqb Pos.eqb fst snd]. eexists. split; [reflexivity|].
  trace_simpl. reflexivity.
Qed.

(** C5. [upload_image_to_imgbb] never raises and posts at most once,
    whatever its input; and for every buffer, when the host fails the
    upload (the POST raises, or the status is not 200, or the status is
    200 and the JSON body has no nested [data.url]), it returns [None]
    after that single POST. *)
Theorem upload_fails_once file_data tr :
  (exists v new,
     upload_image_to_imgbb E file_data tr = (Returns v, tr ++ new)
     /\ (List.length (posts new) <= 1)%nat)
  /\ (forall out,
        reencode file_data = Returns out ->
        host_fails (requests_post E (List.length (posts tr)) imgbb_url
                                  (payload_of E out)) ->
        exists new,
          upload_image_to_imgbb E file_data tr = (Returns PNone, tr ++ new)
          /\ posts new = [(imgbb_url, payload_of E out)]).
Proof.
  split.
  - destruct (reencode file_data) as [out|e] eqn:Hre.
    + rewrite (upload_encodable _ _ _ Hre).
      destruct (requests_post E _ imgbb_url (payload_of E out)) as [r|e].
      * unfold after_response.
        destruct (status_code r =? 200); [destruct (data_url r)|];
          cbn [fst snd]; do 2 eexists; (split; [reflexivity|]);
          trace_simpl; cbn; lia.
      * do 2 eexists. split; [reflexivity|]. trace_simpl. cbn. lia.
    + rewrite (upload_not_encodable _ _ _ Hre).
      do 2 eexists. split; [reflexivity|]. trace_simpl. cbn. lia.
  - intros out Hre Hfail. rewrite (upload_encodable _ _ _ Hre).
    destruct Hfail as [[e He] | [(r & Hr & Hst) | (r & body & e & Hr & Hst & _ & Hu)]];
      rewrite ?He, ?Hr.
    + eexists. split; [reflexivity|]. trace_simpl. reflexivity.
    + unfold after_response. apply Z.eqb_neq in Hst. rewrite Hst.
      cbn [fst snd]. eexists. split; [reflexivity|]. trace_simpl. reflexivity.
    + unfold after_response. rewrite Hu, Hst. cbn [Z.eqb Pos.eqb fst snd].
      eexists. split; [reflexivity|]. trace_simpl. reflexivity.
Qed.

End Uploader.

Lemma upload_returns_data_url_witness :
  exists new,
    upload_image_to_imgbb (P := Mock.pil)
      Mock.happy
      Mock.png_buffer []
    = (Returns (PStr Mock.url_xy), [] ++ new)
    /\ posts new
       = [(imgbb_url,
           {| key := Some (lit "k");
              image_field := b64encode [xff; x00; x2a] |})].
Proof.
  apply (upload_returns_data_url (P := Mock.pil)
           Mock.happy
           Mock.png_buffer
           [xff; x00; x2a] [] Mock.ok_response
           (PDict [(lit "data", PDict [(lit "url", PStr Mock.url_xy)])])
           (PDict [(lit "url", PStr Mock.url_xy)]));
    reflexivity.
Defined.

Lemma upload_fails_once_witness :
  exists new,
    upload_image_to_imgbb (P := Mock.pil)
      Mock.refused
      Mock.png_buffer []
    = (Returns PNone, [] ++ new)
    /\ posts new
       = [(imgbb_url,
           {| key := Some (lit "k");
              image_field := b64encode [xff; x00; x2a] |})].
Proof.
  apply (proj2 (upload_fails_once (P := Mock.pil)
                  Mock.refused
                  Mock.png_buffer [])
               [xff; x00; x2a]).
  - reflexivity.
  - right. left. exists Mock.bad_request. split; [reflexivity|].
    cbn. discriminate.
Defined.

Section Frames.

Context {P : PIL} (E : Env).

Lemma reply_to_run m s tr :
  reply_to E m s tr
  = (bot_reply_to E (List.length (replies tr)) m s, tr ++ [ReplyTo m s]).
Proof. reflexivity. Qed.

(** One attempt, with its [except] block, calls the model once and
    neither replies nor uploads. *)
Lemma attempt_frame image_url retries delay a tr :
  exists o new,
    try_except (attempt E image_url) (attempt_failed retries delay a) tr
    = (o, tr ++ new)
    /\ replies new = [] /\ posts new = [] /\ creates new = [image_url].
Proof.
  assert (Hfailed : forall e tr0 pre,
    replies pre = [] -> posts pre = [] -> creates pre = [image_url] ->
    tr0 = tr ++ pre ->
    exists o new,
      attempt_failed retries delay a e tr0 = (o, tr ++ new)
      /\ replies new = [] /\ posts new = [] /\ creates new = [image_url]).
  { intros e tr0 pre Hr Hp Hc ->.
    unfold attempt_failed, bind, logging_error, logging_info, time_sleep,
      call, raise, ret.
    destruct (a <? retries - 1); [destruct (sleep_error delay)|];
      do 2 eexists; (split; [trace_simpl; reflexivity|]);
      trace_simpl; rewrite Hr, Hp, Hc; auto. }
  unfold try_except, attempt, bind, logging_info, create, call, lift, ret.
  destruct (chat_completions_create E _ image_url) as [r|e].
  - destruct (choices r) as [|c cs]; cbn [index0].
    + eapply Hfailed; [| | |trace_simpl; reflexivity]; reflexivity.
    + destruct (content (message c)) as [t|]; cbn [strip_method].
      * do 2 eexists. split; [trace_simpl; reflexivity|]. auto.
      * eapply Hfailed; [| | |trace_simpl; reflexivity]; reflexivity.
  - eapply Hfailed; [| | |trace_simpl; reflexivity]; reflexivity.
Qed.

(** The analyzer neither replies nor uploads. *)
Lemma analyze_loop_frame image_url retries delay attempts :
  forall tr,
    exists o new,
      analyze_loop E image_url retries delay attempts tr = (o, tr ++ new)
      /\ replies new = [] /\ posts new = [].
Proof.
  induction attempts as [|a rest IH]; intros tr.
  - exists (Returns None), []. cbn. unfold ret. rewrite app_nil_r. auto.
  - cbn [analyze_loop]. unfold bind at 1.
    destruct (attempt_frame image_url retries delay a tr)
      as (o & new & Hrun & Hr & Hp & _).
    rewrite Hrun. destruct o as [[|v]|e].
    + destruct (IH (tr ++ new)) as (o' & new' & Hrun' & Hr' & Hp').
      rewrite Hrun'. exists o', (new ++ new').
      split; [trace_simpl; reflexivity|]. trace_simpl.
      rewrite Hr, Hp, Hr', Hp'. auto.
    + exists (Returns v), new. auto.
    + exists (Raises e), new. auto.
Qed.

Lemma analyze_frame image_url retries delay tr :
  exists o new,
    analyze_image_openai E image_url retries delay tr = (o, tr ++ new)
    /\ replies new = [] /\ posts new = [].
Proof. apply analyze_loop_frame. Qed.

(** The uploader returns, posts at most once, and neither replies nor
    calls the model. *)
Lemma upload_frame file_data tr :
  exists v new,
    upload_image_to_imgbb E file_data tr = (Returns v, tr ++ new)
    /\ replies new = [] /\ creates new = []
    /\ match reencode file_data with
       | Returns out => posts new = [(imgbb_url, payload_of E out)]
       | Raises _ => posts new = []
       end.
Proof.
  destruct (reencode file_data) as [out|e] eqn:Hre.
  - rewrite (upload_encodable _ _ _ _ Hre).
    destruct (requests_post E _ imgbb_url (payload_of E out)) as [r|e].
    + unfold after_response.
      destruct (status_code r =? 200); [destruct (data_url r)|];
        cbn [fst snd]; do 2 eexists; (split; [reflexivity|]);
        trace_simpl; auto.
    + do 2 eexists. split; [reflexivity|]. trace_simpl. auto.
  - rewrite (upload_not_encodable _ _ _ _ Hre).
    do 2 eexists. split; [reflexivity|]. trace_simpl. auto.
Qed.

(** The download asks Telegram only. *)
Lemma download_photo_frame m tr :
  exists o new,
    download_photo E m tr = (o, tr ++ new)
    /\ replies new = [] /\ posts new = [] /\ creates new = [].
Proof.
  unfold download_photo, bind, lift, get_file, download_file, call.
  destruct (index_last (photo m)) as [p|e].
  - destruct (bot_get_file E _ (file_id p)) as [fi|e].
    + do 2 eexists. split; [trace_simpl; reflexivity|]. auto.
    + do 2 eexists. split; [reflexivity|]. auto.
  - exists (Raises e), []. rewrite app_nil_r. auto.
Qed.

End Frames.

Section Dispatcher.

Context {P : PIL} (E : Env).

(** The conversion step on a buffer that does not open: the [except]
    block logs, replies and returns. *)
Lemma convert_step_undecodable m file_data e tr :
  Image_open file_data = Raises e ->
  convert_step E m file_data tr
  = (match bot_reply_to E (List.length (replies tr)) m msg_format_failure with
     | Returns _ => Returns None
     | Raises e' => Raises e'
     end,
     tr ++ [Log ERROR (FormatError e); ReplyTo m msg_format_failure]).
Proof.
  intros H.
  unfold convert_step, try_except, bind, lift, logging_error, reply_to, call.
  rewrite H. trace_simpl.
  destruct (bot_reply_to E _ m msg_format_failure); reflexivity.
Qed.

(** The conversion step on an image that is not WebP: nothing happens. *)
Lemma convert_step_other m file_data im tr :
  Image_open file_data = Returns im ->
  format_is im WEBP = false ->
  convert_step E m file_data tr = (Returns (Some file_data), tr).
Proof.
  intros H Hf. unfold convert_step, try_except, bind, lift.
  rewrite H, Hf. reflexivity.
Qed.

(** The conversion step on a WebP image that converts and encodes. *)
Lemma convert_step_webp m file_data im rgb out tr :
  Image_open file_data = Returns im ->
  format_is im WEBP = true ->
  Image_convert im RGB = Returns rgb ->
  Image_save rgb JPEG = Returns out ->
  convert_step E m file_data tr
  = (Returns (Some out), tr ++ [Log INFO ConvertedWebp]).
Proof.
  intros H Hf Hc Hs.
  unfold convert_step, try_except, bind, lift, logging_info, call.
  rewrite H, Hf, Hc, Hs. reflexivity.
Qed.

(** The top-level [try]: an exception of the body is logged and answered
    with the generic reply, whose outcome is the outcome of the handler. *)
Lemma handle_photo_run m tr :
  handle_photo E m tr
  = match handle_photo_body E m tr with
    | (Returns a, tr') => (Returns a, tr')
    | (Raises e, tr') =>
        (bot_reply_to E (List.length (replies tr')) m msg_generic_failure,
         tr' ++ [Log ERROR (HandlerError e); ReplyTo m msg_generic_failure])
    end.
Proof.
  unfold handle_photo, try_except.
  destruct (handle_photo_body E m tr) as [[a|e] tr']; [reflexivity|].
  unfold bind, logging_error, reply_to, call. trace_simpl. reflexivity.
Qed.

Lemma handle_photo_body_run m tr file_data tr1 :
  download_photo E m tr = (Returns file_data, tr1) ->
  handle_photo_body E m tr
  = match convert_step E m file_data tr1 with
    | (Returns (Some file_data'), tr2) => upload_and_analyze E m file_data' tr2
    | (Returns None, tr2) => (Returns tt, tr2)
    | (Raises e, tr2) => (Raises e, tr2)
    end.
Proof.
  intros H. unfold handle_photo_body, bind at 1. rewrite H.
  unfold bind. destruct (convert_step E m file_data tr1) as [[[fd|]|e] tr2];
    reflexivity.
Qed.

(** After a successful upload the handler replies with the analysis, or
    with the analysis-failure message when the analyzer has nothing. *)
Lemma upload_and_analyze_run m file_data tr url tr3 r tr4 :
  upload_image_to_imgbb E file_data tr = (Returns url, tr3) ->
  truthy url = true ->
  analyze_image_openai E url 3 2 tr3 = (Returns r, tr4) ->
  upload_and_analyze E m file_data tr
  = reply_to E m (if truthy_text r then label ++ format_text r
                  else msg_analysis_failure) tr4.
Proof.
  intros Hu Ht Ha. unfold upload_and_analyze, bind at 1. rewrite Hu, Ht.
  cbn [negb]. unfold bind. rewrite Ha. destruct (truthy_text r); reflexivity.
Qed.

(** Whatever the host and the model answer, the rest of the handler posts
    a re-encodable buffer exactly once. *)
Lemma upload_and_analyze_posts m file_data out tr :
  reencode file_data = Returns out ->
  exists o new,
    upload_and_analyze E m file_data tr = (o, tr ++ new)
    /\ posts new = [(imgbb_url, payload_of E out)].
Proof.
  intros Hre.
  destruct (upload_frame E file_data tr) as (v & n1 & Hu & _ & _ & Hp).
  rewrite Hre in Hp.
  unfold upload_and_analyze, bind at 1. rewrite Hu.
  destruct (truthy v); cbn [negb].
  - unfold bind.
    destruct (analyze_frame E v 3 2 (tr ++ n1)) as (o & n2 & Ha & _ & Hp2).
    rewrite Ha. destruct o as [r|e].
    + destruct (truthy_text r); rewrite reply_to_run; do 2 eexists;
        (split; [trace_simpl; reflexivity|]); trace_simpl;
        rewrite Hp, Hp2; reflexivity.
    + do 2 eexists. split; [trace_simpl; reflexivity|]. trace_simpl.
      rewrite Hp, Hp2. reflexivity.
  - rewrite reply_to_run. do 2 eexists.
    split; [trace_simpl; reflexivity|]. trace_simpl. rewrite Hp. reflexivity.
Qed.

Lemma str_eqb_eq a b : str_eqb a b = true -> a = b.
Proof.
  unfold str_eqb. destruct (list_eq_dec N.eq_dec a b); [auto|discriminate].
Qed.

Lemma format_is_webp_not_jpeg im :
  format_is im WEBP = true -> format_is im JPEG = false.
Proof.
  unfold format_is. destruct (format im) as [g|]; [|discriminate].
  intros H. apply str_eqb_eq in H. subst g. reflexivity.
Qed.

Lemma format_is_jpeg_not_webp im :
  format_is im JPEG = true -> format_is im WEBP = false.
Proof.
  unfold format_is. destruct (format im) as [g|]; [|discriminate].
  intros H. apply str_eqb_eq in H. subst g. reflexivity.
Qed.

(** C3, as the code has it.  For every decodable buffer: a WebP buffer
    is passed on as its RGB-converted JPEG re-encoding, the output of the
    Normalizer; a buffer of any other format, canonical JPEG or not, is
    passed on unchanged, which is the output of the Normalizer for JPEG
    input only. *)
Theorem convert_step_converts_webp_only m file_data im tr :
  Image_open file_data = Returns im ->
  (format_is im WEBP = true ->
   forall out, Normalizer file_data = Returns out ->
     convert_step E m file_data tr
     = (Returns (Some out), tr ++ [Log INFO ConvertedWebp]))
  /\ (format_is im WEBP = false ->
      convert_step E m file_data tr = (Returns (Some file_data), tr))
  /\ (format_is im JPEG = true ->
      convert_step E m file_data tr = (Returns (Some file_data), tr)
      /\ Normalizer file_data = Returns file_data).
Proof.
  intros Ho. split; [|split].
  - intros Hw out Hn. unfold Normalizer in Hn.
    rewrite Ho, (format_is_webp_not_jpeg _ Hw) in Hn.
    destruct (Image_convert im RGB) as [rgb|] eqn:Hc; [|discriminate].
    eapply convert_step_webp; eauto.
  - intros Hw. eapply convert_step_other; eauto.
  - intros Hj. split.
    + eapply convert_step_other; eauto using format_is_jpeg_not_webp.
    + unfold Normalizer. rewrite Ho, Hj. reflexivity.
Qed.

(** Under Pillow's laws the step and the Normalizer differ on every
    decodable buffer that is neither WebP nor JPEG and that the
    Normalizer can re-encode: the step passes the buffer on as it is. *)
Lemma convert_step_differs_on_other_formats {L : PILLaws P}
  m file_data im out tr :
  Image_open file_data = Returns im ->
  format_is im WEBP = false -> format_is im JPEG = false ->
  Normalizer file_data = Returns out ->
  convert_step E m file_data tr = (Returns (Some file_data), tr)
  /\ file_data <> out.
Proof.
  intros Ho Hw Hj Hn. split; [eapply convert_step_other; eauto|].
  intros ->. unfold Normalizer in Hn. rewrite Ho, Hj in Hn.
  destruct (Image_convert im RGB) as [rgb|] eqn:Hc; [|discriminate].
  destruct (save_jpeg_open rgb out (convert_mode _ _ _ Hc) Hn)
    as (j & Hoj & Hfj & _).
  rewrite Ho in Hoj. inversion Hoj; subst j.
  unfold format_is in Hj. rewrite Hfj in Hj. discriminate.
Qed.

(** C6. For every valid WebP or PNG buffer that Telegram delivers (one
    that opens, converts to RGB and encodes as JPEG), the handler posts
    exactly once to the image host, and the bytes it has base64-encoded
    for it open as a JPEG image in mode RGB. *)
Theorem pipeline_submits_rgb_jpeg {L : PILLaws P}
  m tr file_data tr1 im rgb out :
  download_photo E m tr = (Returns file_data, tr1) ->
  Image_open file_data = Returns im ->
  format im = Some WEBP \/ format im = Some PNG ->
  Image_convert im RGB = Returns rgb ->
  Image_save rgb JPEG = Returns out ->
  exists o new jpeg j,
    handle_photo E m tr = (o, tr1 ++ new)
    /\ posts new
       = [(imgbb_url,
           {| key := IMGBB_API_KEY E; image_field := b64encode jpeg |})]
    /\ Image_open jpeg = Returns j
    /\ format j = Some JPEG /\ mode j = RGB.
Proof.
  intros Hd Ho Hf Hc Hs.
  destruct (save_jpeg_open rgb out (convert_mode _ _ _ Hc) Hs)
    as (j & Hoj & Hfj & Hmj & j' & b' & Hcj & Hsj).
  (* the buffer with which the handler goes on, its re-encoding, and the
     trace of the conversion step *)
  assert (Hstep : exists fd' jpeg pre,
    convert_step E m file_data tr1 = (Returns (Some fd'), tr1 ++ pre)
    /\ posts pre = [] /\ reencode fd' = Returns jpeg
    /\ exists k, Image_open jpeg = Returns k
                 /\ format k = Some JPEG /\ mode k = RGB).
  { destruct Hf as [Hf|Hf].
    - exists out, b', [Log INFO ConvertedWebp]. repeat split.
      + eapply convert_step_webp; eauto.
        unfold format_is. rewrite Hf. reflexivity.
      + unfold reencode. rewrite Hoj, Hcj. exact Hsj.
      + destruct (save_jpeg_open j' b' (convert_mode _ _ _ Hcj) Hsj)
          as (k & Hk & Hfk & Hmk & _).
        exists k. auto.
    - exists file_data, out, []. rewrite app_nil_r. repeat split.
      + eapply convert_step_other; eauto.
        unfold format_is. rewrite Hf. reflexivity.
      + unfold reencode. rewrite Ho, Hc. exact Hs.
      + exists j. auto. }
  destruct Hstep as (fd' & jpeg & pre & Hcs & Hpp & Hre & k & Hk & Hfk & Hmk).
  destruct (upload_and_analyze_posts m fd' jpeg (tr1 ++ pre) Hre)
    as (o & new & Hrun & Hp).
  rewrite handle_photo_run, (handle_photo_body_run _ _ _ _ Hd), Hcs, Hrun.
  destruct o as [[]|e].
  - exists (Returns tt), (pre ++ new), jpeg, k.
    split; [trace_simpl; reflexivity|]. trace_simpl. rewrite Hpp, Hp. auto.
  - do 2 eexists. exists jpeg, k.
    split; [trace_simpl; reflexivity|]. trace_simpl. rewrite Hpp, Hp. auto.
Qed.

(** C7, as the code has it.  For every photo message whose downloaded
    bytes fail to decode as an image, nothing is posted to the image
    host and the model is never called.  When the bytes do not open, or
    open as WebP, the conversion step replies with the format-failure
    message and the handler stops before the uploader; when they open in
    another format, they are handed to the uploader, which fails before
    its POST, and the reply is the upload-failure message.  When
    Telegram accepts the reply, that reply is all that follows. *)
Theorem undecodable_photo_stops m tr file_data tr1 e :
  download_photo E m tr = (Returns file_data, tr1) ->
  decode_fails file_data e ->
  exists o rest,
    handle_photo E m tr
    = (o, tr1
            ++ (if decoded_by_handler file_data
                then [Log ERROR (FormatError e);
                      ReplyTo m msg_format_failure]
                else [Log ERROR (ImgbbException e);
                      ReplyTo m msg_upload_failure])
            ++ rest)
    /\ posts rest = [] /\ creates rest = []
    /\ (bot_reply_to E (List.length (replies tr1)) m
                     (if decoded_by_handler file_data
                      then msg_format_failure else msg_upload_failure)
        = Returns tt ->
        o = Returns tt /\ rest = []).
Proof.
  intros Hd Hfail.
  rewrite handle_photo_run, (handle_photo_body_run _ _ _ _ Hd).
  unfold decoded_by_handler.
  destruct Hfail as [Ho | (im & Ho & Hcv)]; rewrite Ho.
  - rewrite (convert_step_undecodable _ _ _ _ Ho).
    destruct (bot_reply_to E _ m msg_format_failure) as [[]|e'].
    + exists (Returns tt), []. auto.
    + do 2 eexists. split; [trace_simpl; reflexivity|].
      repeat split; congruence.
  - destruct (format_is im WEBP) eqn:Hf.
    + assert (Hc : convert_step E m file_data tr1
                   = (match bot_reply_to E (List.length (replies tr1)) m
                              msg_format_failure with
                      | Returns _ => Returns None
                      | Raises e' => Raises e'
                      end,
                      tr1 ++ [Log ERROR (FormatError e);
                              ReplyTo m msg_format_failure])).
      { unfold convert_step, try_except, bind, lift, logging_error, reply_to,
          call, ret.
        rewrite Ho, Hf, Hcv. trace_simpl.
        destruct (bot_reply_to E _ m msg_format_failure); reflexivity. }
      rewrite Hc.
      destruct (bot_reply_to E _ m msg_format_failure) as [[]|e'].
      * exists (Returns tt), []. auto.
      * do 2 eexists. split; [trace_simpl; reflexivity|].
        repeat split; congruence.
    + rewrite (convert_step_other _ _ _ _ Ho Hf).
      assert (Hre : reencode file_data = Raises e)
        by (unfold reencode; rewrite Ho, Hcv; reflexivity).
      unfold upload_and_analyze, bind at 1.
      rewrite (upload_not_encodable _ _ _ _ Hre). cbn [truthy negb].
      rewrite reply_to_run. trace_simpl.
      destruct (bot_reply_to E _ m msg_upload_failure) as [[]|e'].
      * exists (Returns tt), []. auto.
      * do 2 eexists. split; [trace_simpl; reflexivity|].
        repeat split; congruence.
Qed.

(** C8, as the code has it.  Every uncaught exception of the five
    steps, that is every exception that leaves the body of the outer
    [try], is caught at the top level, logged and answered with the
    generic failure reply, and the handler ends as that reply ends; a
    body that returns makes the handler return; so the only exception
    that leaves the handler is one that the generic reply itself
    raised. *)
Theorem handle_photo_catches m tr :
  (forall e tr',
     handle_photo_body E m tr = (Raises e, tr') ->
     handle_photo E m tr
     = (bot_reply_to E (List.length (replies tr')) m msg_generic_failure,
        tr' ++ [Log ERROR (HandlerError e); ReplyTo m msg_generic_failure]))
  /\ (forall a tr',
        handle_photo_body E m tr = (Returns a, tr') ->
        handle_photo E m tr = (Returns a, tr'))
  /\ (forall e' tr'',
        handle_photo E m tr = (Raises e', tr'') ->
        exists e tr',
          handle_photo_body E m tr = (Raises e, tr')
          /\ bot_reply_to E (List.length (replies tr')) m msg_generic_failure
             = Raises e'
          /\ tr'' = tr' ++ [Log ERROR (HandlerError e);
                            ReplyTo m msg_generic_failure]).
Proof.
  rewrite handle_photo_run.
  destruct (handle_photo_body E m tr) as [[a|e] tr0].
  - split; [intros e tr' H; discriminate H|].
    split; [intros a' tr' H; exact H|].
    intros e' tr'' H. discriminate H.
  - split; [intros e0 tr' H; inversion H; subst; reflexivity|].
    split; [intros a tr' H; discriminate H|].
    intros e' tr'' H. inversion H as [[Hr Ht]].
    exists e, tr0. rewrite Hr. auto.
Qed.

(** A conversion step that lets the handler go on has not replied. *)
Lemma convert_step_some_frame m file_data tr file_data' tr2 :
  convert_step E m file_data tr = (Returns (Some file_data'), tr2) ->
  replies tr2 = replies tr.
Proof.
  unfold convert_step, try_except, bind, lift, logging_info, logging_error,
    reply_to, call, ret.
  destruct (Image_open file_data) as [im|e].
  - destruct (format_is im WEBP).
    + destruct (Image_convert im RGB) as [rgb|e].
      * destruct (Image_save rgb JPEG) as [out|e].
        -- intros H. inversion H; subst. trace_simpl. reflexivity.
        -- destruct (bot_reply_to E _ m msg_format_failure); discriminate.
      * destruct (bot_reply_to E _ m msg_format_failure); discriminate.
    + intros H. inversion H; subst. reflexivity.
  - destruct (bot_reply_to E _ m msg_format_failure); discriminate.
Qed.

(** Download, conversion, upload and analysis, when each of them lets the
    handler go on, have sent no reply, and the handler ends with the
    reply that the analysis decides. *)
Lemma handle_photo_analyzed m tr file_data tr1 file_data' tr2 url tr3 r tr4 :
  download_photo E m tr = (Returns file_data, tr1) ->
  convert_step E m file_data tr1 = (Returns (Some file_data'), tr2) ->
  upload_image_to_imgbb E file_data' tr2 = (Returns url, tr3) ->
  truthy url = true ->
  analyze_image_openai E url 3 2 tr3 = (Returns r, tr4) ->
  replies tr4 = replies tr
  /\ handle_photo_body E m tr
     = reply_to E m (if truthy_text r then label ++ format_text r
                     else msg_analysis_failure) tr4.
Proof.
  intros Hd Hc Hu Ht Ha. split.
  - destruct (download_photo_frame E m tr) as (o1 & n1 & H1 & R1 & _).
    rewrite Hd in H1. inversion H1; subst.
    apply convert_step_some_frame in Hc.
    destruct (upload_frame E file_data' tr2) as (v & n3 & H3 & R3 & _).
    rewrite Hu in H3. inversion H3; subst.
    destruct (analyze_frame E v 3 2 (tr2 ++ n3)) as (o4 & n4 & H4 & R4 & _).
    rewrite Ha in H4. inversion H4; subst.
    trace_simpl. rewrite R4, R3, Hc. trace_simpl. rewrite R1.
    trace_simpl. reflexivity.
  - rewrite (handle_photo_body_run _ _ _ _ Hd), Hc.
    apply (upload_and_analyze_run _ _ _ _ _ _ _ Hu Ht Ha).
Qed.

(** C9. For every photo message for which the upload returns a URL and
    the analysis a non-empty text [t], the reply of the handler, the
    first and (when Telegram accepts it) only one, is exactly the label
    followed by [t]. *)
Theorem successful_pipeline_reply
  m tr file_data tr1 file_data' tr2 url tr3 t tr4 :
  download_photo E m tr = (Returns file_data, tr1) ->
  convert_step E m file_data tr1 = (Returns (Some file_data'), tr2) ->
  upload_image_to_imgbb E file_data' tr2 = (Returns url, tr3) ->
  truthy url = true ->
  analyze_image_openai E url 3 2 tr3 = (Returns (Some t), tr4) ->
  t <> [] ->
  exists o rest,
    handle_photo E m tr = (o, tr4 ++ ReplyTo m (label ++ t) :: rest)
    /\ replies tr4 = replies tr
    /\ (bot_reply_to E (List.length (replies tr)) m (label ++ t) = Returns tt ->
        o = Returns tt /\ rest = []).
Proof.
  intros Hd Hc Hu Ht Ha Hne.
  destruct (handle_photo_analyzed _ _ _ _ _ _ _ _ _ _ Hd Hc Hu Ht Ha)
    as [Hr Hb].
  assert (Htt : truthy_text (Some t) = true)
    by (destruct t; [contradiction|reflexivity]).
  rewrite Htt in Hb. cbn [format_text] in Hb.
  rewrite handle_photo_run, Hb, reply_to_run, Hr.
  destruct (bot_reply_to E _ m (label ++ t)) as [[]|e'].
  - exists (Returns tt), []. auto.
  - do 2 eexists. split; [trace_simpl; reflexivity|].
    split; [reflexivity|discriminate].
Qed.

(** C10. When the analyzer returns the stripped text of a completion
    and that text is empty, the handler replies with the
    analysis-failure message, and no reply of its run is the label
    followed by the empty text. *)
Theorem empty_analysis_is_failure
  m tr file_data tr1 file_data' tr2 url tr3 s tr4 :
  download_photo E m tr = (Returns file_data, tr1) ->
  convert_step E m file_data tr1 = (Returns (Some file_data'), tr2) ->
  upload_image_to_imgbb E file_data' tr2 = (Returns url, tr3) ->
  truthy url = true ->
  analyze_image_openai E url 3 2 tr3 = (Returns (Some (strip s)), tr4) ->
  strip s = [] ->
  exists o rest,
    handle_photo E m tr = (o, tr4 ++ ReplyTo m msg_analysis_failure :: rest)
    /\ replies tr4 = replies tr
    /\ ~ In (m, label ++ strip s)
            (replies (ReplyTo m msg_analysis_failure :: rest))
    /\ (bot_reply_to E (List.length (replies tr)) m msg_analysis_failure
        = Returns tt ->
        o = Returns tt /\ rest = []).
Proof.
  intros Hd Hc Hu Ht Ha Hs. rewrite Hs in *.
  destruct (handle_photo_analyzed _ _ _ _ _ _ _ _ _ _ Hd Hc Hu Ht Ha)
    as [Hr Hb].
  cbn [truthy_text] in Hb.
  rewrite handle_photo_run, Hb, reply_to_run, Hr.
  destruct (bot_reply_to E _ m msg_analysis_failure) as [[]|e'].
  - exists (Returns tt), []. repeat split; auto.
    trace_simpl. intros [H|[]]. inversion H.
  - do 2 eexists. split; [trace_simpl; reflexivity|].
    repeat split; try reflexivity; try discriminate.
    trace_simpl. intros [H|[H|[]]]; inversion H.
Qed.

End Dispatcher.

(** ** The test doubles at work *)

(** The miniature codec obeys Pillow's laws. *)
Lemma mock_pil_laws : PILLaws Mock.pil.
Proof.
  split.
  - intros im m im' H. inversion H. reflexivity.
  - intros im b Hm Hs. cbn in Hs. unfold Mock.save in Hs.
    rewrite Hm in Hs. cbn in Hs. inversion Hs; subst b.
    eexists. split; [reflexivity|]. repeat split.
    do 2 eexists. split; reflexivity.
Qed.

(** A PNG photo is passed on as PNG, where the Normalizer would have
    re-encoded it: the claim C3 as stated fails. *)
Lemma png_is_passed_on_unconverted :
  Normalizer (P := Mock.pil) Mock.png_buffer = Returns [xff; x00; x2a]
  /\ convert_step (P := Mock.pil) Mock.happy Mock.msg Mock.png_buffer []
     = (Returns (Some Mock.png_buffer), [])
  /\ ~ same_conversion_semantics (P := Mock.pil) Mock.happy.
Proof.
  split; [reflexivity|]. split; [reflexivity|].
  intros H.
  destruct (H Mock.msg Mock.png_buffer [] [xff; x00; x2a] eq_refl)
    as [tr' Htr'].
  discriminate Htr'.
Qed.

Lemma convert_step_converts_webp_only_witness :
  (format_is {| format := Some WEBP; mode := lit "RGBA"; pixels := [x2a] |}
             WEBP = true ->
   forall out, Normalizer (P := Mock.pil) Mock.webp_buffer = Returns out ->
     convert_step (P := Mock.pil) Mock.happy_webp Mock.msg Mock.webp_buffer []
     = (Returns (Some out), [] ++ [Log INFO ConvertedWebp]))
  /\ (format_is {| format := Some WEBP; mode := lit "RGBA"; pixels := [x2a] |}
                WEBP = false ->
      convert_step (P := Mock.pil) Mock.happy_webp Mock.msg Mock.webp_buffer []
      = (Returns (Some Mock.webp_buffer), []))
  /\ (format_is {| format := Some WEBP; mode := lit "RGBA"; pixels := [x2a] |}
                JPEG = true ->
      convert_step (P := Mock.pil) Mock.happy_webp Mock.msg Mock.webp_buffer []
      = (Returns (Some Mock.webp_buffer), [])
      /\ Normalizer (P := Mock.pil) Mock.webp_buffer
         = Returns Mock.webp_buffer).
Proof.
  apply (convert_step_converts_webp_only (P := Mock.pil) Mock.happy_webp
           Mock.msg Mock.webp_buffer).
  reflexivity.
Defined.

Lemma pipeline_submits_rgb_jpeg_witness :
  exists o new jpeg j,
    handle_photo (P := Mock.pil) Mock.happy_webp Mock.msg []
    = (o, Mock.downloaded ++ new)
    /\ posts new
       = [(imgbb_url,
           {| key := IMGBB_API_KEY Mock.happy_webp;
              image_field := b64encode jpeg |})]
    /\ Image_open (PIL := Mock.pil) jpeg = Returns j
    /\ format j = Some JPEG /\ mode j = RGB.
Proof.
  apply (pipeline_submits_rgb_jpeg (P := Mock.pil) (L := mock_pil_laws)
           Mock.happy_webp Mock.msg [] Mock.webp_buffer Mock.downloaded
           {| format := Some WEBP; mode := lit "RGBA"; pixels := [x2a] |}
           {| format := None; mode := RGB; pixels := [x2a] |}
           [xff; x00; x2a]).
  - reflexivity.
  - reflexivity.
  - left. reflexivity.
  - reflexivity.
  - reflexivity.
Defined.

Lemma undecodable_photo_stops_witness :
  exists o rest,
    handle_photo (P := Mock.pil) Mock.garbage Mock.msg []
    = (o, Mock.downloaded
            ++ Log ERROR (FormatError
                            (LibraryError (lit "UnidentifiedImageError")))
               :: ReplyTo Mock.msg msg_format_failure :: rest)
    /\ posts rest = [] /\ creates rest = []
    /\ (bot_reply_to Mock.garbage (List.length (replies Mock.downloaded))
                     Mock.msg msg_format_failure
        = Returns tt ->
        o = Returns tt /\ rest = []).
Proof.
  apply (undecodable_photo_stops (P := Mock.pil) Mock.garbage Mock.msg []
           Mock.garbage_buffer Mock.downloaded).
  - reflexivity.
  - left. reflexivity.
Defined.

(** With the network down the download raises and so does the generic
    reply: the exception leaves the handler, and the claim C8 as stated
    fails. *)
Lemma exception_leaves_handler :
  handle_photo (P := Mock.pil) Mock.offline Mock.msg []
  = (Raises Mock.network_error,
     Mock.downloaded ++ [Log ERROR (HandlerError Mock.network_error);
                    ReplyTo Mock.msg msg_generic_failure])
  /\ ~ never_propagates (P := Mock.pil) Mock.offline.
Proof.
  split; [reflexivity|].
  intros H. destruct (H Mock.msg []) as [tr' Htr']. discriminate Htr'.
Qed.

Lemma handle_photo_catches_witness :
  handle_photo (P := Mock.pil) Mock.no_download Mock.msg []
  = (bot_reply_to Mock.no_download (List.length (replies Mock.downloaded))
                  Mock.msg msg_generic_failure,
     Mock.downloaded ++ [Log ERROR (HandlerError Mock.network_error);
                    ReplyTo Mock.msg msg_generic_failure]).
Proof.
  apply (proj1 (handle_photo_catches (P := Mock.pil) Mock.no_download
                  Mock.msg [])
               Mock.network_error Mock.downloaded).
  reflexivity.
Defined.

Lemma successful_pipeline_reply_witness :
  exists o rest,
    handle_photo (P := Mock.pil) Mock.happy Mock.msg []
    = (o, Mock.analyzed
            ++ ReplyTo Mock.msg (label ++ lit "a cat.") :: rest)
    /\ replies Mock.analyzed = replies []
    /\ (bot_reply_to Mock.happy (List.length (replies [])) Mock.msg
                     (label ++ lit "a cat.")
        = Returns tt ->
        o = Returns tt /\ rest = []).
Proof.
  apply (successful_pipeline_reply (P := Mock.pil) Mock.happy Mock.msg []
           Mock.png_buffer Mock.downloaded Mock.png_buffer Mock.downloaded
           (PStr Mock.url_xy) Mock.uploaded (lit "a cat.") Mock.analyzed).
  - reflexivity.
  - reflexivity.
  - reflexivity.
  - reflexivity.
  - reflexivity.
  - discriminate.
Defined.

Lemma empty_analysis_is_failure_witness :
  exists o rest,
    handle_photo (P := Mock.pil) Mock.blank Mock.msg []
    = (o, Mock.analyzed_blank
            ++ ReplyTo Mock.msg msg_analysis_failure :: rest)
    /\ replies Mock.analyzed_blank = replies []
    /\ ~ In (Mock.msg, label ++ strip (lit "   "))
            (replies (ReplyTo Mock.msg msg_analysis_failure :: rest))
    /\ (bot_reply_to Mock.blank (List.length (replies [])) Mock.msg
                     msg_analysis_failure
        = Returns tt ->
        o = Returns tt /\ rest = []).
Proof.
  apply (empty_analysis_is_failure (P := Mock.pil) Mock.blank Mock.msg []
           Mock.png_buffer Mock.downloaded Mock.png_buffer Mock.downloaded
           (PStr Mock.url_xy) Mock.uploaded (lit "   ") Mock.analyzed_blank).
  - reflexivity.
  - reflexivity.
  - reflexivity.
  - reflexivity.
  - reflexivity.
  - reflexivity.
Defined.

(** * Further properties of the code *)

(** ** Runs of the analyzer, whatever the model endpoint answers *)

Section AnalyzerRuns.

Context (E : Env).

(** One attempt and its [except] block: one model call, and then either
    the stripped text, or a sleep before the next attempt, or [None]
    after the last one, or the exception of a sleep that is refused. *)
Lemma attempt_cases image_url retries delay a tr :
  exists new,
    quiet new /\ creates new = [image_url]
    /\ match text_of (chat_completions_create E (List.length (creates tr))
                                               image_url) with
       | Some s =>
           try_except (attempt E image_url) (attempt_failed retries delay a) tr
           = (Returns (Return (Some (strip s))), tr ++ new)
           /\ sleeps new = []
       | None =>
           if a <? retries - 1 then
             match sleep_error delay with
             | Some refusal =>
                 try_except (attempt E image_url)
                            (attempt_failed retries delay a) tr
                 = (Raises refusal, tr ++ new)
                 /\ sleeps new = []
             | None =>
                 try_except (attempt E image_url)
                            (attempt_failed retries delay a) tr
                 = (Returns Next, tr ++ new)
                 /\ sleeps new = [delay]
             end
           else
             try_except (attempt E image_url)
                        (attempt_failed retries delay a) tr
             = (Returns (Return None), tr ++ new)
             /\ sleeps new = []
       end.
Proof.
  assert (Hfailed : forall e pre tr0,
    quiet pre -> creates pre = [image_url] -> sleeps pre = [] ->
    tr0 = tr ++ pre ->
    exists new,
      quiet new /\ creates new = [image_url]
      /\ if a <? retries - 1 then
           match sleep_error delay with
           | Some refusal =>
               attempt_failed retries delay a e tr0
               = (Raises refusal, tr ++ new) /\ sleeps new = []
           | None =>
               attempt_failed retries delay a e tr0
               = (Returns Next, tr ++ new) /\ sleeps new = [delay]
           end
         else
           attempt_failed retries delay a e tr0
           = (Returns (Return None), tr ++ new) /\ sleeps new = []).
  { intros e pre tr0 (Hr & Hp & Hg & Hd) Hc Hs ->.
    unfold attempt_failed, bind, logging_error, logging_info, time_sleep,
      call, raise, ret.
    destruct (a <? retries - 1); [destruct (sleep_error delay)|];
      eexists; (split; [|split; [|split; [trace_simpl; reflexivity|]]]);
      unfold quiet; trace_simpl; rewrite ?Hr, ?Hp, ?Hg, ?Hd, ?Hc, ?Hs;
      auto. }
  unfold try_except, attempt, bind, logging_info, create, call, lift, ret.
  trace_simpl.
  destruct (chat_completions_create E _ image_url) as [r|e]; cbn [text_of].
  - destruct (choices r) as [|c cs]; cbn [index0].
    + apply (Hfailed IndexError
               [Log INFO (SendingUrl image_url); ChatCreate image_url;
                Log INFO (VisionResponse r)]);
        unfold quiet; trace_simpl; auto.
    + destruct (content (message c)) as [t|]; cbn [strip_method].
      * eexists. split; [|split; [|split; [trace_simpl; reflexivity|]]];
          unfold quiet; auto.
      * apply (Hfailed AttributeError
                 [Log INFO (SendingUrl image_url); ChatCreate image_url;
                  Log INFO (VisionResponse r)]);
          unfold quiet; trace_simpl; auto.
  - apply (Hfailed e [Log INFO (SendingUrl image_url); ChatCreate image_url]);
      unfold quiet; trace_simpl; auto.
Qed.

Lemma quiet_nil : quiet [].
Proof. repeat split. Qed.

Lemma quiet_app a b : quiet a -> quiet b -> quiet (a ++ b).
Proof.
  intros (Ha1 & Ha2 & Ha3 & Ha4) (Hb1 & Hb2 & Hb3 & Hb4).
  unfold quiet. trace_simpl.
  rewrite Ha1, Ha2, Ha3, Ha4, Hb1, Hb2, Hb3, Hb4. auto.
Qed.

(** The loop over the attempts [a, ..., a+k-1], the last of which is
    attempt [retries - 1], whatever the endpoint answers: [c] calls are
    made, the first [c - 1] of which carry no text, and the outcome tells
    how the last one ended. *)
Lemma analyze_loop_shape image_url retries delay :
  forall k a tr,
    Z.of_nat (a + k) = retries ->
    exists o new c,
      analyze_loop E image_url retries delay (map Z.of_nat (seq a k)) tr
      = (o, tr ++ new)
      /\ quiet new
      /\ creates new = repeat image_url c
      /\ (c <= k)%nat /\ ((0 < k)%nat -> (0 < c)%nat)
      /\ sleeps new = (match sleep_error delay with
                       | Some _ => []
                       | None => repeat delay (c - 1)
                       end)
      /\ (forall i, (i < c - 1)%nat ->
            text_of (chat_completions_create E (List.length (creates tr) + i)
                                             image_url) = None)
      /\ match o with
         | Returns (Some t) =>
             (0 < c)%nat
             /\ exists s,
                 text_of (chat_completions_create E
                            (List.length (creates tr) + (c - 1)) image_url)
                 = Some s
                 /\ t = strip s
         | Returns None =>
             c = k
             /\ forall i, (i < k)%nat ->
                  text_of (chat_completions_create E
                             (List.length (creates tr) + i) image_url) = None
         | Raises e =>
             sleep_error delay = Some e /\ c = 1%nat
             /\ text_of (chat_completions_create E
                           (List.length (creates tr)) image_url) = None
         end.
Proof.
  induction k as [|k IH]; intros a tr Hr.
  - exists (Returns None), [], 0%nat. cbn. unfold ret. rewrite app_nil_r.
    split; [reflexivity|]. split; [apply quiet_nil|].
    repeat split; auto; try lia; try (intros; lia).
    destruct (sleep_error delay); reflexivity.
  - cbn [seq map analyze_loop]. unfold bind at 1.
    destruct (attempt_cases image_url retries delay (Z.of_nat a) tr)
      as (new1 & Hq1 & Hc1 & Hcase).
    destruct (text_of (chat_completions_create E (List.length (creates tr))
                                               image_url))
      as [s|] eqn:Htxt.
    + destruct Hcase as [Hrun Hs1]. rewrite Hrun. unfold ret.
      exists (Returns (Some (strip s))), new1, 1%nat.
      split; [reflexivity|]. split; [exact Hq1|]. split; [exact Hc1|].
      split; [lia|]. split; [lia|].
      split; [rewrite Hs1; destruct (sleep_error delay); reflexivity|].
      split; [intros; lia|]. split; [lia|].
      exists s. cbn [Nat.sub]. rewrite Nat.add_0_r. auto.
    + destruct (Z.of_nat a <? retries - 1) eqn:Hlast.
      * destruct (sleep_error delay) as [refusal|] eqn:Hneg;
          destruct Hcase as [Hrun Hs1]; rewrite Hrun.
        -- exists (Raises refusal), new1, 1%nat.
           split; [reflexivity|]. split; [exact Hq1|]. split; [exact Hc1|].
           repeat split; auto; try lia; intros; lia.
        -- apply Z.ltb_lt in Hlast.
           destruct (IH (S a) (tr ++ new1) ltac:(lia))
             as (o & new & c & Hrun' & Hq & Hc & Hle & Hpos & Hs & Hnone & Ho).
           assert (Hn : List.length (creates (tr ++ new1))
                        = S (List.length (creates tr)))
             by (rewrite creates_app, length_app, Hc1; cbn; lia).
           rewrite Hn in Hnone, Ho.
           assert (Hc0 : (0 < c)%nat) by (apply Hpos; lia).
           rewrite Hrun'. exists o, (new1 ++ new), (S c).
           split; [rewrite app_assoc; reflexivity|].
           split; [apply quiet_app; assumption|].
           split; [rewrite creates_app, Hc1, Hc; reflexivity|].
           split; [lia|]. split; [lia|].
           split.
           { rewrite sleeps_app, Hs1, Hs. cbn [app Nat.sub].
             rewrite Nat.sub_0_r. destruct c; [lia|]. cbn.
             rewrite Nat.sub_0_r. reflexivity. }
           split.
           { intros i Hi. destruct i as [|i]; [rewrite Nat.add_0_r; exact Htxt|].
             replace (List.length (creates tr) + S i)%nat
               with (S (List.length (creates tr)) + i)%nat by lia.
             apply Hnone. lia. }
           destruct o as [[t|]|e].
           ++ destruct Ho as (_ & s' & Hs' & Ht). split; [lia|].
              exists s'. split; [|exact Ht].
              replace (List.length (creates tr) + (S c - 1))%nat
                with (S (List.length (creates tr)) + (c - 1))%nat by lia.
              exact Hs'.
           ++ destruct Ho as (Hck & Hall). split; [lia|].
              intros i Hi. destruct i as [|i]; [rewrite Nat.add_0_r; exact Htxt|].
              replace (List.length (creates tr) + S i)%nat
                with (S (List.length (creates tr)) + i)%nat by lia.
              apply Hall. lia.
           ++ destruct Ho as (Hd & _). discriminate Hd.
      * destruct Hcase as [Hrun Hs1]. rewrite Hrun. unfold ret.
        apply Z.ltb_ge in Hlast. assert (k = 0%nat) by lia. subst k.
        exists (Returns None), new1, 1%nat.
        split; [reflexivity|]. split; [exact Hq1|]. split; [exact Hc1|].
        split; [lia|]. split; [lia|].
        split; [rewrite Hs1; destruct (sleep_error delay); reflexivity|].
        split; [intros; lia|]. split; [reflexivity|].
        intros i Hi. assert (i = 0%nat) by lia. subst i.
        rewrite Nat.add_0_r. exact Htxt.
Qed.

End AnalyzerRuns.

Section AnalyzerProperties.

Context (E : Env).

(** The loop reads [retries] only to tell the last attempt from the
    others. *)
Lemma analyze_loop_retries_ext image_url r1 r2 delay l :
  forall tr,
    (forall a, In a l -> (a <? r1 - 1) = (a <? r2 - 1)) ->
    analyze_loop E image_url r1 delay l tr
    = analyze_loop E image_url r2 delay l tr.
Proof.
  induction l as [|a l IHl]; intros tr Hl; [reflexivity|].
  cbn [analyze_loop]. unfold bind, try_except, attempt_failed.
  rewrite (Hl a (or_introl eq_refl)).
  destruct (attempt E image_url tr) as [[f|e] tr1].
  - destruct f; [apply IHl; intros; apply Hl; right; assumption|reflexivity].
  - unfold bind.
    destruct (logging_error (VisionError (a + 1) e) tr1) as [[u|e1] tr2];
      [|reflexivity].
    destruct (a <? r2 - 1).
    + destruct (logging_info (Retrying delay) tr2) as [[u1|e2] tr3];
        [|reflexivity].
      destruct (time_sleep delay tr3) as [[u2|e3] tr4]; [|reflexivity].
      cbn. apply IHl. intros; apply Hl; right; assumption.
    + destruct (logging_error MaxRetries tr2) as [[u1|e2] tr3]; reflexivity.
Qed.

(** A run of the analyzer, whatever the endpoint answers and whatever
    the budget. *)
Lemma analyze_shape image_url retries delay tr :
  exists o new c,
    analyze_image_openai E image_url retries delay tr = (o, tr ++ new)
    /\ quiet new
    /\ creates new = repeat image_url c
    /\ (c <= Z.to_nat retries)%nat
    /\ ((0 < Z.to_nat retries)%nat -> (0 < c)%nat)
    /\ sleeps new = (match sleep_error delay with
                     | Some _ => []
                     | None => repeat delay (c - 1)
                     end)
    /\ (forall i, (i < c - 1)%nat ->
          text_of (chat_completions_create E (List.length (creates tr) + i)
                                           image_url) = None)
    /\ match o with
       | Returns (Some t) =>
           (0 < c)%nat
           /\ exists s,
               text_of (chat_completions_create E
                          (List.length (creates tr) + (c - 1)) image_url)
               = Some s
               /\ t = strip s
       | Returns None =>
           c = Z.to_nat retries
           /\ forall i, (i < Z.to_nat retries)%nat ->
                text_of (chat_completions_create E
                           (List.length (creates tr) + i) image_url) = None
       | Raises e =>
           sleep_error delay = Some e /\ c = 1%nat
           /\ text_of (chat_completions_create E
                         (List.length (creates tr)) image_url) = None
       end.
Proof.
  destruct (analyze_loop_shape E image_url (Z.of_nat (Z.to_nat retries)) delay
              (Z.to_nat retries) 0%nat tr eq_refl)
    as (o & new & c & Hrun & Hrest).
  exists o, new, c. split; [|exact Hrest].
  unfold analyze_image_openai, range. rewrite <- Hrun.
  apply analyze_loop_retries_ext.
  intros a Ha. apply in_map_iff in Ha. destruct Ha as (n & <- & Hn).
  apply in_seq in Hn.
  destruct (Z.ltb_spec (Z.of_nat n) (retries - 1));
    destruct (Z.ltb_spec (Z.of_nat n) (Z.of_nat (Z.to_nat retries) - 1));
    try reflexivity; lia.
Qed.

(** X1. With a retry budget of zero or less the loop body never runs:
    the analyzer returns [None] at once, without calling the model and
    without a log line. *)
Theorem analyze_without_budget image_url retries delay tr :
  retries <= 0 ->
  analyze_image_openai E image_url retries delay tr = (Returns None, tr).
Proof.
  intros H. unfold analyze_image_openai, range.
  replace (Z.to_nat retries) with 0%nat by lia. reflexivity.
Qed.

(** X2. Whatever the model endpoint answers, the analyzer calls it at
    most [retries] times, always with the same URL, sleeps less often
    than it calls, each time for [delay], and touches neither Telegram
    nor the image host. *)
Theorem analyze_calls_bounded image_url retries delay tr :
  exists o new c j,
    analyze_image_openai E image_url retries delay tr = (o, tr ++ new)
    /\ quiet new
    /\ creates new = repeat image_url c /\ (c <= Z.to_nat retries)%nat
    /\ sleeps new = repeat delay j /\ (j <= c - 1)%nat.
Proof.
  destruct (analyze_shape image_url retries delay tr)
    as (o & new & c & Hrun & Hq & Hc & Hle & _ & Hs & _).
  exists o, new, c,
    (match sleep_error delay with Some _ => 0%nat | None => (c - 1)%nat end).
  split; [exact Hrun|].
  split; [exact Hq|]. split; [exact Hc|]. split; [exact Hle|].
  rewrite Hs. destruct (sleep_error delay); split; (reflexivity || lia).
Qed.


(** X4. With a delay that [time.sleep] refuses and a budget of two
    attempts or more, a first attempt that fails makes the analyzer
    raise: the sleep of the [except] block raises [ValueError] for a
    negative delay down to [- max_sleep] and [OverflowError] for a
    delay beyond [max_sleep] on either side, and nothing catches it.
    The model was called once. *)
Theorem analyze_refused_delay_raises image_url retries delay tr :
  delay < 0 \/ max_sleep < delay -> 2 <= retries ->
  text_of (chat_completions_create E (List.length (creates tr)) image_url)
  = None ->
  exists new,
    analyze_image_openai E image_url retries delay tr
    = (Raises (if (delay <? - max_sleep) || (max_sleep <? delay)
               then OverflowError else ValueError),
       tr ++ new)
    /\ creates new = [image_url] /\ sleeps new = [].
Proof.
  intros Hd Hr Htxt. unfold analyze_image_openai, range.
  destruct (Z.to_nat retries) as [|n] eqn:Hn; [lia|].
  cbn [seq map analyze_loop]. unfold bind at 1.
  destruct (attempt_cases E image_url retries delay (Z.of_nat 0) tr)
    as (new & _ & Hc & Hcase).
  rewrite Htxt in Hcase.
  assert (H1 : (Z.of_nat 0 <? retries - 1) = true) by (apply Z.ltb_lt; lia).
  assert (H2 : sleep_error delay
               = Some (if (delay <? - max_sleep) || (max_sleep <? delay)
                       then OverflowError else ValueError)).
  { unfold sleep_error.
    destruct ((delay <? - max_sleep) || (max_sleep <? delay)) eqn:Hout;
      [reflexivity|].
    apply orb_false_elim in Hout. destruct Hout as [_ Hhi].
    apply Z.ltb_ge in Hhi.
    assert (Hneg : (delay <? 0) = true) by (apply Z.ltb_lt; lia).
    rewrite Hneg. reflexivity. }
  rewrite H1, H2 in Hcase. destruct Hcase as [Hrun Hs]. rewrite Hrun.
  exists new. auto.
Qed.



(** X7. What the analyzer returns is sound.  A text [t] is the stripped
    text of an answer within the budget, the first to carry any, so that
    [t] neither begins nor ends with whitespace; [None] means that none
    of the [retries] answers carried a text. *)
Theorem analyze_result_sound image_url retries delay tr v tr' :
  analyze_image_openai E image_url retries delay tr = (Returns v, tr') ->
  match v with
  | Some t =>
      strip t = t
      /\ exists n s,
          (n < Z.to_nat retries)%nat
          /\ text_of (chat_completions_create E
                        (List.length (creates tr) + n) image_url) = Some s
          /\ t = strip s
          /\ forall i, (i < n)%nat ->
               text_of (chat_completions_create E
                          (List.length (creates tr) + i) image_url) = None
  | None =>
      forall i, (i < Z.to_nat retries)%nat ->
        text_of (chat_completions_create E (List.length (creates tr) + i)
                                         image_url) = None
  end.
Proof.
  intros Hv.
  destruct (analyze_shape image_url retries delay tr)
    as (o & new & c & Hrun & _ & _ & Hle & _ & _ & Hbefore & Ho).
  rewrite Hv in Hrun. inversion Hrun; subst o.
  destruct v as [t|].
  - destruct Ho as (Hpos & s & Hs & ->).
    split; [apply strip_idempotent|].
    exists (c - 1)%nat, s. repeat split; auto. lia.
  - destruct Ho as (_ & Hall). exact Hall.
Qed.

End AnalyzerProperties.

(** ** Runs of the uploader *)

Section UploaderProperties.

Context {P : PIL} (E : Env).

(** X8. The uploader returns a value other than [None] only out of an
    answer of the host: the buffer was re-encoded and posted, the status
    was 200 and the value is [data.url] of the JSON body. *)
Theorem upload_value_comes_from_host file_data tr v tr' :
  upload_image_to_imgbb E file_data tr = (Returns v, tr') ->
  v <> PNone ->
  exists out r,
    reencode file_data = Returns out
    /\ requests_post E (List.length (posts tr)) imgbb_url (payload_of E out)
       = Returns r
    /\ status_code r = 200
    /\ data_url r = Returns v.
Proof.
  intros Hrun Hv.
  destruct (reencode file_data) as [out|e] eqn:Hre.
  - rewrite (upload_encodable _ _ _ _ Hre) in Hrun.
    destruct (requests_post E _ imgbb_url (payload_of E out)) as [r|e] eqn:Hp.
    + unfold after_response in Hrun.
      destruct (status_code r =? 200) eqn:Hst.
      * destruct (data_url r) as [u|e] eqn:Hu; cbn [fst snd] in Hrun;
          inversion Hrun; subst; [|contradiction].
        exists out, r. apply Z.eqb_eq in Hst. auto.
      * cbn [fst snd] in Hrun. inversion Hrun; subst. contradiction.
    + inversion Hrun; subst. contradiction.
  - rewrite (upload_not_encodable _ _ _ _ Hre) in Hrun.
    inversion Hrun; subst. contradiction.
Qed.

(** X9. A buffer that does not open as an image, or does not convert to
    RGB, or does not encode as JPEG never reaches the host: the uploader
    logs the exception and returns [None] without any POST. *)
Theorem unencodable_upload_skips_host file_data e tr :
  reencode file_data = Raises e ->
  exists new,
    upload_image_to_imgbb E file_data tr = (Returns PNone, tr ++ new)
    /\ new = [Log ERROR (ImgbbException e)]
    /\ posts new = [].
Proof.
  intros Hre. rewrite (upload_not_encodable _ _ _ _ Hre).
  eexists. split; [reflexivity|]. split; reflexivity.
Qed.

(** X10. A 200 answer whose body is not JSON ([response.json()] raises)
    is an upload failure like the others: [None], after the one POST. *)
Theorem upload_unparsable_body file_data out tr r e :
  reencode file_data = Returns out ->
  requests_post E (List.length (posts tr)) imgbb_url (payload_of E out)
  = Returns r ->
  status_code r = 200 ->
  json r = Raises e ->
  exists new,
    upload_image_to_imgbb E file_data tr = (Returns PNone, tr ++ new)
    /\ posts new = [(imgbb_url, payload_of E out)]
    /\ In (Log ERROR (ImgbbException e)) new.
Proof.
  intros Hre Hp Hst Hj.
  rewrite (upload_encodable _ _ _ _ Hre), Hp.
  unfold after_response, data_url. rewrite Hst, Hj.
  cbn [Z.eqb Pos.eqb fst snd]. eexists. split; [reflexivity|].
  split; [trace_simpl; reflexivity|]. cbn. auto.
Qed.

(** X11. The uploader does not look at what [data.url] is: on a 200
    answer it returns that value as it is, string or not. *)
Theorem upload_returns_any_data_url file_data out tr r v :
  reencode file_data = Returns out ->
  requests_post E (List.length (posts tr)) imgbb_url (payload_of E out)
  = Returns r ->
  status_code r = 200 ->
  data_url r = Returns v ->
  exists new,
    upload_image_to_imgbb E file_data tr = (Returns v, tr ++ new)
    /\ posts new = [(imgbb_url, payload_of E out)].
Proof.
  intros Hre Hp Hst Hu.
  rewrite (upload_encodable _ _ _ _ Hre), Hp.
  unfold after_response. rewrite Hst, Hu.
  cbn [Z.eqb Pos.eqb fst snd]. eexists. split; [reflexivity|].
  trace_simpl. reflexivity.
Qed.

End UploaderProperties.

(** ** Runs of the handler, whatever the services answer *)

Section HandlerRuns.

Context {P : PIL} (E : Env).

Lemma result_unit_eta (x : result unit) :
  x = match x with Returns _ => Returns tt | Raises e => Raises e end.
Proof. destruct x as [[]|e]; reflexivity. Qed.

Lemma index_last_snoc {A} (l : list A) (x : A) :
  index_last (l ++ [x]) = Returns x.
Proof.
  induction l as [|y l IH]; [reflexivity|].
  cbn [app index_last]. destruct (l ++ [x]) eqn:H; [|exact IH].
  destruct l; discriminate.
Qed.

(** The download, step by step. *)
Lemma download_photo_cases m tr :
  match index_last (photo m) with
  | Raises e => download_photo E m tr = (Raises e, tr)
  | Returns p =>
      match bot_get_file E (List.length (get_files tr)) (file_id p) with
      | Raises e =>
          download_photo E m tr = (Raises e, tr ++ [GetFile (file_id p)])
      | Returns fi =>
          download_photo E m tr
          = (bot_download_file E (List.length (downloads tr)) (file_path fi),
             tr ++ [GetFile (file_id p); DownloadFile (file_path fi)])
      end
  end.
Proof.
  unfold download_photo, bind, lift, get_file, download_file, call.
  destruct (index_last (photo m)) as [p|e]; [|reflexivity].
  destruct (bot_get_file E _ (file_id p)) as [fi|e]; [|reflexivity].
  trace_simpl. reflexivity.
Qed.

(** The events of a download. *)
Lemma download_photo_events m tr :
  exists o pre,
    download_photo E m tr = (o, tr ++ pre)
    /\ replies pre = [] /\ posts pre = [] /\ creates pre = []
    /\ sleeps pre = []
    /\ get_files pre = last_file_id m
    /\ (List.length (downloads pre) <= 1)%nat.
Proof.
  pose proof (download_photo_cases m tr) as H. unfold last_file_id.
  destruct (index_last (photo m)) as [p|e].
  - destruct (bot_get_file E _ (file_id p)) as [fi|e].
    + do 2 eexists. split; [exact H|]. cbn. repeat split; auto.
    + do 2 eexists. split; [exact H|]. cbn. repeat split; auto.
  - exists (Raises e), []. rewrite app_nil_r. cbn. repeat split; auto.
Qed.

(** The conversion step either lets the handler go on, having logged at
    most, or ends in its [except] block, with the format-failure reply. *)
Lemma convert_step_cases m file_data tr :
  (exists file_data' pre,
     convert_step E m file_data tr = (Returns (Some file_data'), tr ++ pre)
     /\ silent pre)
  \/ (exists e,
        convert_step E m file_data tr
        = (match bot_reply_to E (List.length (replies tr)) m
                   msg_format_failure with
           | Returns _ => Returns (@None bytes)
           | Raises e' => Raises e'
           end,
           tr ++ [Log ERROR (FormatError e); ReplyTo m msg_format_failure])).
Proof.
  unfold convert_step, try_except, bind, lift, logging_error, logging_info,
    reply_to, call, ret.
  destruct (Image_open file_data) as [im|e].
  - destruct (format_is im WEBP).
    + destruct (Image_convert im RGB) as [rgb|e].
      * destruct (Image_save rgb JPEG) as [out|e].
        -- left. exists out, [Log INFO ConvertedWebp].
           split; [reflexivity|]. repeat split.
        -- right. exists e. trace_simpl.
           destruct (bot_reply_to E _ m msg_format_failure); reflexivity.
      * right. exists e. trace_simpl.
        destruct (bot_reply_to E _ m msg_format_failure); reflexivity.
    + left. exists file_data, []. rewrite app_nil_r.
      split; [reflexivity|]. repeat split.
  - right. exists e. trace_simpl.
    destruct (bot_reply_to E _ m msg_format_failure); reflexivity.
Qed.

(** The events of an upload. *)
Lemma upload_events file_data tr :
  exists v new,
    upload_image_to_imgbb E file_data tr = (Returns v, tr ++ new)
    /\ replies new = [] /\ creates new = [] /\ sleeps new = []
    /\ get_files new = [] /\ downloads new = []
    /\ (posts new = []
        \/ exists out, posts new = [(imgbb_url, payload_of E out)]).
Proof.
  destruct (reencode file_data) as [out|e] eqn:Hre.
  - rewrite (upload_encodable _ _ _ _ Hre).
    destruct (requests_post E _ imgbb_url (payload_of E out)) as [r|e].
    + unfold after_response.
      destruct (status_code r =? 200); [destruct (data_url r)|];
        cbn [fst snd]; do 2 eexists; (split; [reflexivity|]);
        trace_simpl; repeat split; auto; right; exists out; reflexivity.
    + do 2 eexists. split; [reflexivity|]. trace_simpl.
      repeat split; auto. right. exists out. reflexivity.
  - rewrite (upload_not_encodable _ _ _ _ Hre).
    do 2 eexists. split; [reflexivity|]. trace_simpl. repeat split; auto.
Qed.

(** Lines 126-136 end in exactly one reply, after at most one POST and
    at most three model calls, all of them with the value the uploader
    returned. *)
Lemma upload_and_analyze_shape m file_data tr :
  exists v n1 n2 s c j,
    upload_image_to_imgbb E file_data tr = (Returns v, tr ++ n1)
    /\ upload_and_analyze E m file_data tr = reply_to E m s (tr ++ n1 ++ n2)
    /\ quiet n2 /\ reply_text s
    /\ creates n2 = repeat v c /\ (c <= 3)%nat
    /\ sleeps n2 = repeat 2 j /\ (j <= c - 1)%nat
    /\ (truthy v = false -> n2 = [] /\ s = msg_upload_failure)
    /\ (truthy v = true ->
        exists r,
          analyze_image_openai E v 3 2 (tr ++ n1)
          = (Returns r, tr ++ n1 ++ n2)
          /\ s = if truthy_text r then label ++ format_text r
                 else msg_analysis_failure).
Proof.
  destruct (upload_events file_data tr) as (v & n1 & Hu & _).
  unfold upload_and_analyze, bind at 1. rewrite Hu.
  destruct (truthy v) eqn:Hv; cbn [negb].
  - destruct (analyze_shape E v 3 2 (tr ++ n1))
      as (o & n2 & c & Hrun & Hq & Hc & Hle & _ & Hs & _ & Ho).
    change (sleep_error 2) with (@None exn) in Hs.
    destruct o as [r|e]; [|destruct Ho as (Hneg & _); discriminate Hneg].
    exists v, n1, n2,
      (if truthy_text r then label ++ format_text r else msg_analysis_failure),
      c, (c - 1)%nat.
    split; [reflexivity|]. split.
    { unfold bind. rewrite Hrun, <- app_assoc.
      destruct (truthy_text r); reflexivity. }
    split; [exact Hq|]. split.
    { destruct r as [[|x t]|]; cbn [truthy_text format_text]; unfold reply_text;
        [auto | | auto].
      do 4 right. exists (x :: t). split; [discriminate|]. split; [|reflexivity].
      destruct Ho as (_ & s0 & _ & ->). apply strip_idempotent. }
    split; [exact Hc|]. split; [exact Hle|]. split; [exact Hs|].
    split; [lia|]. split; [congruence|].
    intros _. exists r. rewrite Hrun, <- app_assoc. auto.
  - exists v, n1, [], msg_upload_failure, 0%nat, 0%nat.
    rewrite app_nil_r. split; [reflexivity|]. split; [reflexivity|].
    split; [apply quiet_nil|]. split; [unfold reply_text; auto|].
    repeat split; auto. congruence.
Qed.

(** The body of the handler either raises before any reply, or ends
    with one reply, whose outcome is its own. *)
Lemma handle_photo_body_shape m tr :
  exists pre,
    before_reply E m pre
    /\ ((exists e, handle_photo_body E m tr = (Raises e, tr ++ pre))
        \/ (exists s,
              reply_text s
              /\ handle_photo_body E m tr
                 = (match bot_reply_to E (List.length (replies tr)) m s with
                    | Returns _ => Returns tt
                    | Raises e => Raises e
                    end,
                    tr ++ pre ++ [ReplyTo m s]))).
Proof.
  destruct (download_photo_events m tr)
    as (o0 & pre0 & Hd & R0 & P0 & C0 & S0 & G0 & D0).
  destruct o0 as [fd|e].
  - rewrite (handle_photo_body_run _ _ _ _ _ Hd).
    destruct (convert_step_cases m fd (tr ++ pre0))
      as [(fd' & pre2 & Hc & (R2 & P2 & G2 & D2) & C2 & S2) | (e & Hc)];
      rewrite Hc.
    + destruct (upload_and_analyze_shape m fd' ((tr ++ pre0) ++ pre2))
        as (v & n1 & n2 & s & c & j & Hu & Hrun & (R4 & P4 & G4 & D4) & Hs
            & C4 & Hle & S4 & Hj & _).
      destruct (upload_events fd' ((tr ++ pre0) ++ pre2))
        as (v' & n1' & Hu' & R3 & C3 & S3 & G3 & D3 & P3).
      rewrite Hu in Hu'. inversion Hu' as [[Hv Hn]].
      apply app_inv_head in Hn. subst v' n1'.
      exists (pre0 ++ pre2 ++ n1 ++ n2). split.
      * unfold before_reply. trace_simpl.
        rewrite R0, R2, R3, R4, G0, G2, G3, G4, D2, D3, D4, P0, P2, P4,
          C0, C2, C3, C4, S0, S2, S3, S4, ?app_nil_r.
        cbn [app]. split; [reflexivity|]. split; [reflexivity|].
        split; [exact D0|]. split; [exact P3|].
        exists v, c, j. auto.
      * right. exists s. split; [exact Hs|].
        rewrite Hrun, reply_to_run. trace_simpl.
        rewrite R0, R2, R3, R4, ?app_nil_r.
        rewrite <- result_unit_eta. reflexivity.
    + exists (pre0 ++ [Log ERROR (FormatError e)]). split.
      * unfold before_reply. trace_simpl.
        rewrite R0, G0, P0, C0, S0, ?app_nil_r.
        split; [reflexivity|]. split; [reflexivity|].
        split; [exact D0|]. split; [left; reflexivity|].
        exists PNone, 0%nat, 0%nat. cbn. repeat split; lia.
      * right. exists msg_format_failure.
        split; [unfold reply_text; auto|].
        trace_simpl. rewrite R0, ?app_nil_r.
        destruct (bot_reply_to E (List.length (replies tr)) m
                               msg_format_failure);
          reflexivity.
  - exists pre0. split.
    + unfold before_reply. rewrite R0, G0, P0, C0, S0.
      split; [reflexivity|]. split; [reflexivity|].
      split; [exact D0|]. split; [left; reflexivity|].
      exists PNone, 0%nat, 0%nat. cbn. repeat split; lia.
    + left. exists e. unfold handle_photo_body, bind at 1. rewrite Hd.
      reflexivity.
Qed.

(** A run of the handler: what precedes the first reply, then one reply
    or two. *)
Lemma handle_photo_shape m tr :
  exists o pre post s,
    handle_photo E m tr = (o, tr ++ pre ++ post)
    /\ before_reply E m pre /\ reply_text s
    /\ posts post = [] /\ creates post = [] /\ sleeps post = []
    /\ get_files post = [] /\ downloads post = []
    /\ (replies post = [(m, s)]
        \/ replies post = [(m, s); (m, msg_generic_failure)])
    /\ (bot_reply_to E (List.length (replies tr)) m s = Returns tt ->
        o = Returns tt /\ replies post = [(m, s)]).
Proof.
  rewrite handle_photo_run.
  destruct (handle_photo_body_shape m tr)
    as (pre & Hpre & [(e & Hb) | (s & Hs & Hb)]); rewrite Hb;
    pose proof Hpre as (R0 & _).
  - exists (bot_reply_to E (List.length (replies (tr ++ pre))) m
                         msg_generic_failure),
      pre, [Log ERROR (HandlerError e); ReplyTo m msg_generic_failure],
      msg_generic_failure.
    split; [rewrite app_assoc; reflexivity|]. split; [exact Hpre|].
    split; [unfold reply_text; auto|].
    rewrite replies_app, R0, app_nil_r. repeat split; auto.
  - destruct (bot_reply_to E (List.length (replies tr)) m s) as [[]|e] eqn:Hr.
    + exists (Returns tt), pre, [ReplyTo m s], s.
      split; [reflexivity|]. split; [exact Hpre|]. split; [exact Hs|].
      repeat split; auto.
    + eexists _, pre, [ReplyTo m s; Log ERROR (HandlerError e);
                       ReplyTo m msg_generic_failure], s.
      split; [trace_simpl; reflexivity|]. split; [exact Hpre|].
      split; [exact Hs|].
      do 5 (split; [reflexivity|]).
      split; [right; reflexivity|].
      intros H. rewrite Hr in H. discriminate H.
Qed.

(** X12. Whatever Telegram, the host and the model do, the handler
    replies to the message: once with one of its four fixed messages or
    with the label and a non-empty stripped text, and a second time,
    with the generic message, only when that reply failed.  No other
    text is ever sent. *)
Theorem handle_photo_always_replies m tr :
  exists o new s,
    handle_photo E m tr = (o, tr ++ new)
    /\ reply_text s
    /\ (replies new = [(m, s)]
        \/ (replies new = [(m, s); (m, msg_generic_failure)]
            /\ exists e,
                bot_reply_to E (List.length (replies tr)) m s = Raises e)).
Proof.
  destruct (handle_photo_shape m tr)
    as (o & pre & post & s & Hrun & (R0 & _) & Hs & _ & _ & _ & _ & _
        & Hrep & Hone).
  exists o, (pre ++ post), s. split; [exact Hrun|]. split; [exact Hs|].
  rewrite replies_app, R0. cbn [app].
  destruct Hrep as [Hrep|Hrep]; [left; exact Hrep|].
  destruct (bot_reply_to E (List.length (replies tr)) m s) as [[]|e].
  - destruct (Hone eq_refl) as [_ Hrep']. left. exact Hrep'.
  - right. split; [exact Hrep|]. exists e. reflexivity.
Qed.

(** X13. When Telegram accepts the replies to the message, the handler
    returns, whatever else fails, and it has replied exactly once. *)
Theorem handle_photo_returns m tr :
  (forall k s, bot_reply_to E k m s = Returns tt) ->
  exists new s,
    handle_photo E m tr = (Returns tt, tr ++ new)
    /\ reply_text s /\ replies new = [(m, s)].
Proof.
  intros Hok.
  destruct (handle_photo_shape m tr)
    as (o & pre & post & s & Hrun & (R0 & _) & Hs & _ & _ & _ & _ & _
        & _ & Hone).
  destruct (Hone (Hok _ _)) as [-> Hrep].
  exists (pre ++ post), s. split; [exact Hrun|]. split; [exact Hs|].
  rewrite replies_app, R0. exact Hrep.
Qed.

(** X14. The cost of one photo message, whatever the services answer:
    at most one file information request and one download, at most one
    POST, which goes to ImgBB with the configured key, at most three
    calls to the model, all with the same URL, and at most two sleeps,
    of 2 seconds each. *)
Theorem handle_photo_budget m tr :
  exists o new,
    handle_photo E m tr = (o, tr ++ new)
    /\ (List.length (get_files new) <= 1)%nat
    /\ (List.length (downloads new) <= 1)%nat
    /\ (posts new = []
        \/ exists out, posts new = [(imgbb_url, payload_of E out)])
    /\ exists v c j,
         creates new = repeat v c /\ (c <= 3)%nat
         /\ sleeps new = repeat 2 j /\ (j <= 2)%nat.
Proof.
  destruct (handle_photo_shape m tr)
    as (o & pre & post & s & Hrun & (R0 & G0 & D0 & P0 & v & c & j & C0 & Hc
                                     & S0 & Hj)
        & _ & Pp & Cp & Sp & Gp & Dp & _).
  exists o, (pre ++ post). split; [exact Hrun|].
  trace_simpl. rewrite Pp, Cp, Sp, Gp, Dp, ?app_nil_r.
  split.
  { rewrite G0. unfold last_file_id.
    destruct (index_last (photo m)); cbn; lia. }
  split; [exact D0|]. split; [exact P0|].
  exists v, c, j. repeat split; auto. lia.
Qed.

(** X15. Of the variants of a photo the handler asks Telegram for the
    last one only. *)
Theorem handle_photo_uses_last_variant m tr ps p :
  photo m = ps ++ [p] ->
  exists o new,
    handle_photo E m tr = (o, tr ++ new)
    /\ get_files new = [file_id p].
Proof.
  intros Hp.
  destruct (handle_photo_shape m tr)
    as (o & pre & post & s & Hrun & (_ & G0 & _) & _ & _ & _ & _ & Gp & _).
  exists o, (pre ++ post). split; [exact Hrun|].
  rewrite get_files_app, Gp, G0, app_nil_r. unfold last_file_id.
  rewrite Hp, index_last_snoc. reflexivity.
Qed.

(** X16. A message without any photo variant: [message.photo[-1]]
    raises [IndexError], nothing is asked of Telegram, the host or the
    model, and the reply is the generic failure message. *)
Theorem handle_photo_without_photo m tr :
  photo m = [] ->
  handle_photo E m tr
  = (bot_reply_to E (List.length (replies tr)) m msg_generic_failure,
     tr ++ [Log ERROR (HandlerError IndexError);
            ReplyTo m msg_generic_failure]).
Proof.
  intros Hp. rewrite handle_photo_run.
  unfold handle_photo_body, bind at 1.
  pose proof (download_photo_cases m tr) as Hd. rewrite Hp in Hd.
  cbn [index_last] in Hd. rewrite Hd. reflexivity.
Qed.

(** X17. When the download fails (Telegram refuses the file information
    or the file), nothing is uploaded or analyzed, and the reply is the
    generic failure message. *)
Theorem handle_photo_download_fails m tr e tr1 :
  download_photo E m tr = (Raises e, tr1) ->
  exists pre,
    tr1 = tr ++ pre
    /\ replies pre = [] /\ posts pre = [] /\ creates pre = []
    /\ handle_photo E m tr
       = (bot_reply_to E (List.length (replies tr)) m msg_generic_failure,
          tr1 ++ [Log ERROR (HandlerError e); ReplyTo m msg_generic_failure]).
Proof.
  intros Hd.
  destruct (download_photo_events m tr)
    as (o & pre & Hd' & R0 & P0 & C0 & _).
  rewrite Hd in Hd'. inversion Hd'; subst.
  exists pre. repeat split; auto.
  rewrite handle_photo_run. unfold handle_photo_body, bind at 1.
  rewrite Hd, replies_app, R0, app_nil_r. reflexivity.
Qed.

(** Download, conversion and upload, when the handler goes on after
    each of them, have neither replied nor called the model. *)
Lemma pipeline_prefix m tr file_data tr1 file_data' tr2 v tr3 :
  download_photo E m tr = (Returns file_data, tr1) ->
  convert_step E m file_data tr1 = (Returns (Some file_data'), tr2) ->
  upload_image_to_imgbb E file_data' tr2 = (Returns v, tr3) ->
  exists pre,
    tr3 = tr ++ pre
    /\ replies pre = [] /\ creates pre = [] /\ sleeps pre = [].
Proof.
  intros Hd Hc Hu.
  destruct (download_photo_events m tr)
    as (o0 & pre0 & Hd' & R0 & _ & C0 & S0 & _).
  rewrite Hd in Hd'. inversion Hd'; subst o0 tr1. clear Hd'.
  destruct (convert_step_cases m file_data (tr ++ pre0))
    as [(fd2 & pre2 & Hc' & (R2 & _) & C2 & S2) | (e & Hc')];
    rewrite Hc in Hc'.
  - inversion Hc'; subst fd2 tr2. clear Hc'.
    destruct (upload_events file_data' ((tr ++ pre0) ++ pre2))
      as (v' & n1 & Hu' & R3 & C3 & S3 & _).
    rewrite Hu in Hu'. inversion Hu'; subst v' tr3. clear Hu'.
    exists (pre0 ++ pre2 ++ n1). split; [trace_simpl; reflexivity|].
    trace_simpl. rewrite R0, R2, R3, C0, C2, C3, S0, S2, S3. auto.
  - destruct (bot_reply_to E _ m msg_format_failure); inversion Hc'.
Qed.

(** X18. When the uploader returns nothing that counts as a URL
    ([None], but also an empty string, [0], [false] or an empty
    container out of the host's JSON), the handler replies with the
    upload-failure message and never calls the model. *)
Theorem handle_photo_upload_fails m tr file_data tr1 file_data' tr2 v tr3 :
  download_photo E m tr = (Returns file_data, tr1) ->
  convert_step E m file_data tr1 = (Returns (Some file_data'), tr2) ->
  upload_image_to_imgbb E file_data' tr2 = (Returns v, tr3) ->
  truthy v = false ->
  exists o rest,
    handle_photo E m tr = (o, tr3 ++ ReplyTo m msg_upload_failure :: rest)
    /\ replies tr3 = replies tr
    /\ creates (tr3 ++ ReplyTo m msg_upload_failure :: rest) = creates tr
    /\ (bot_reply_to E (List.length (replies tr)) m msg_upload_failure
        = Returns tt ->
        o = Returns tt /\ rest = []).
Proof.
  intros Hd Hc Hu Hv.
  destruct (pipeline_prefix _ _ _ _ _ _ _ _ Hd Hc Hu)
    as (pre & -> & R & C & _).
  rewrite handle_photo_run, (handle_photo_body_run _ _ _ _ _ Hd), Hc.
  unfold upload_and_analyze, bind at 1. rewrite Hu, Hv. cbn [negb].
  rewrite reply_to_run, replies_app, R, app_nil_r.
  destruct (bot_reply_to E _ m msg_upload_failure) as [[]|e].
  - exists (Returns tt), []. trace_simpl. rewrite ?R, ?C, ?app_nil_r. auto.
  - do 2 eexists. split; [trace_simpl; reflexivity|].
    trace_simpl. rewrite ?R, ?C, ?app_nil_r.
    repeat split; auto; congruence.
Qed.

(** X19. When the analyzer gives up and returns [None], the handler
    replies with the analysis-failure message. *)
Theorem handle_photo_analysis_gives_up
  m tr file_data tr1 file_data' tr2 url tr3 tr4 :
  download_photo E m tr = (Returns file_data, tr1) ->
  convert_step E m file_data tr1 = (Returns (Some file_data'), tr2) ->
  upload_image_to_imgbb E file_data' tr2 = (Returns url, tr3) ->
  truthy url = true ->
  analyze_image_openai E url 3 2 tr3 = (Returns None, tr4) ->
  exists o rest,
    handle_photo E m tr = (o, tr4 ++ ReplyTo m msg_analysis_failure :: rest)
    /\ replies tr4 = replies tr
    /\ (bot_reply_to E (List.length (replies tr)) m msg_analysis_failure
        = Returns tt ->
        o = Returns tt /\ rest = []).
Proof.
  intros Hd Hc Hu Ht Ha.
  destruct (handle_photo_analyzed _ _ _ _ _ _ _ _ _ _ _ Hd Hc Hu Ht Ha)
    as [Hr Hb].
  cbn [truthy_text] in Hb.
  rewrite handle_photo_run, Hb, reply_to_run, Hr.
  destruct (bot_reply_to E _ m msg_analysis_failure) as [[]|e'].
  - exists (Returns tt), []. auto.
  - do 2 eexists. split; [trace_simpl; reflexivity|].
    split; [reflexivity|]. intros H; discriminate H.
Qed.

(** X20. A WebP photo that opens but does not convert or encode (Pillow
    decodes lazily, so a truncated file opens) is a format failure like
    one that does not open: the format-failure reply, no POST and no
    call to the model. *)
Theorem handle_photo_webp_conversion_fails m tr file_data tr1 im e :
  download_photo E m tr = (Returns file_data, tr1) ->
  Image_open file_data = Returns im ->
  format_is im WEBP = true ->
  Image_convert im RGB = Raises e
  \/ (exists rgb, Image_convert im RGB = Returns rgb
                  /\ Image_save rgb JPEG = Raises e) ->
  exists o rest,
    handle_photo E m tr
    = (o, tr1 ++ Log ERROR (FormatError e)
              :: ReplyTo m msg_format_failure :: rest)
    /\ posts rest = [] /\ creates rest = []
    /\ (bot_reply_to E (List.length (replies tr1)) m msg_format_failure
        = Returns tt ->
        o = Returns tt /\ rest = []).
Proof.
  intros Hd Ho Hf Hfail.
  assert (Hc : convert_step E m file_data tr1
               = (match bot_reply_to E (List.length (replies tr1)) m
                          msg_format_failure with
                  | Returns _ => Returns None
                  | Raises e' => Raises e'
                  end,
                  tr1 ++ [Log ERROR (FormatError e);
                          ReplyTo m msg_format_failure])).
  { unfold convert_step, try_except, bind, lift, logging_error, reply_to,
      call, ret.
    rewrite Ho, Hf.
    destruct Hfail as [Hcv | (rgb & Hcv & Hsv)]; rewrite Hcv, ?Hsv;
      trace_simpl;
      destruct (bot_reply_to E _ m msg_format_failure); reflexivity. }
  rewrite handle_photo_run, (handle_photo_body_run _ _ _ _ _ Hd), Hc.
  destruct (bot_reply_to E _ m msg_format_failure) as [[]|e'].
  - exists (Returns tt), []. auto.
  - do 2 eexists. split; [trace_simpl; reflexivity|].
    repeat split; congruence.
Qed.

(** X21. A photo of another format that opens but cannot be re-encoded
    passes the conversion step and fails inside the uploader: the reply
    is the upload-failure message, although nothing was posted. *)
Theorem handle_photo_unencodable_is_upload_failure m tr file_data tr1 im e :
  download_photo E m tr = (Returns file_data, tr1) ->
  Image_open file_data = Returns im ->
  format_is im WEBP = false ->
  reencode file_data = Raises e ->
  exists o rest,
    handle_photo E m tr
    = (o, tr1 ++ Log ERROR (ImgbbException e)
              :: ReplyTo m msg_upload_failure :: rest)
    /\ posts rest = [] /\ creates rest = []
    /\ (bot_reply_to E (List.length (replies tr1)) m msg_upload_failure
        = Returns tt ->
        o = Returns tt /\ rest = []).
Proof.
  intros Hd Ho Hf Hre.
  rewrite handle_photo_run, (handle_photo_body_run _ _ _ _ _ Hd),
    (convert_step_other _ _ _ _ _ Ho Hf).
  unfold upload_and_analyze, bind at 1.
  rewrite (upload_not_encodable _ _ _ _ Hre). cbn [truthy negb].
  rewrite reply_to_run. trace_simpl.
  destruct (bot_reply_to E _ m msg_upload_failure) as [[]|e'].
  - exists (Returns tt), []. auto.
  - do 2 eexists. split; [trace_simpl; reflexivity|].
    repeat split; congruence.
Qed.

(** X22. An answer of the model made of whitespace only is not retried:
    the analyzer returns the empty text after that one call, and the
    handler replies with the analysis-failure message. *)
Theorem handle_photo_blank_answer
  m tr file_data tr1 file_data' tr2 url tr3 s :
  download_photo E m tr = (Returns file_data, tr1) ->
  convert_step E m file_data tr1 = (Returns (Some file_data'), tr2) ->
  upload_image_to_imgbb E file_data' tr2 = (Returns url, tr3) ->
  truthy url = true ->
  text_of (chat_completions_create E (List.length (creates tr3)) url)
  = Some s ->
  all_space s = true ->
  exists o new,
    handle_photo E m tr = (o, tr3 ++ new)
    /\ creates new = [url] /\ sleeps new = []
    /\ (replies new = [(m, msg_analysis_failure)]
        \/ replies new = [(m, msg_analysis_failure);
                          (m, msg_generic_failure)])
    /\ (bot_reply_to E (List.length (replies tr)) m msg_analysis_failure
        = Returns tt ->
        o = Returns tt /\ replies new = [(m, msg_analysis_failure)]).
Proof.
  intros Hd Hc Hu Ht Htxt Hsp.
  assert (Ha : exists n,
    analyze_image_openai E url 3 2 tr3 = (Returns (Some []), tr3 ++ n)
    /\ quiet n /\ creates n = [url] /\ sleeps n = []).
  { unfold analyze_image_openai, range. change (Z.to_nat 3) with 3%nat.
    cbn [seq map analyze_loop]. unfold bind at 1.
    destruct (attempt_cases E url 3 2 (Z.of_nat 0) tr3)
      as (n & Hq & Hcr & Hcase).
    rewrite Htxt in Hcase. destruct Hcase as [Hrun Hsl]. rewrite Hrun.
    apply strip_empty_iff in Hsp. rewrite Hsp. exists n. auto. }
  destruct Ha as (n & Ha & (Rn & _) & Cn & Sn).
  destruct (handle_photo_analyzed _ _ _ _ _ _ _ _ _ _ _ Hd Hc Hu Ht Ha)
    as [Hr Hb].
  cbn [truthy_text] in Hb.
  rewrite handle_photo_run, Hb, reply_to_run, Hr.
  destruct (bot_reply_to E _ m msg_analysis_failure) as [[]|e'].
  - exists (Returns tt), (n ++ [ReplyTo m msg_analysis_failure]).
    split; [trace_simpl; reflexivity|]. trace_simpl.
    rewrite Rn, Cn, Sn. cbn. auto.
  - do 2 eexists. split; [trace_simpl; reflexivity|]. trace_simpl.
    rewrite Rn, Cn, Sn. cbn.
    repeat split; auto; congruence.
Qed.

(** X23. After the upload the handler posts nothing more, and it calls
    the model only with the value the uploader returned: at most three
    times, and not at all when that value does not count as a URL. *)
Theorem handle_photo_after_upload m tr file_data tr1 file_data' tr2 v tr3 :
  download_photo E m tr = (Returns file_data, tr1) ->
  convert_step E m file_data tr1 = (Returns (Some file_data'), tr2) ->
  upload_image_to_imgbb E file_data' tr2 = (Returns v, tr3) ->
  exists o new c,
    handle_photo E m tr = (o, tr3 ++ new)
    /\ posts new = []
    /\ creates new = repeat v c /\ (c <= 3)%nat
    /\ (truthy v = false -> c = 0%nat).
Proof.
  intros Hd Hc Hu.
  destruct (upload_and_analyze_shape m file_data' tr2)
    as (v' & n1 & n2 & s & c & j & Hu' & Hrun & (R2 & P2 & _) & _ & C2 & Hle
        & _ & _ & Hfalse & _).
  rewrite Hu in Hu'. inversion Hu'; subst v' tr3. clear Hu'.
  assert (Hc0 : truthy v = false -> c = 0%nat).
  { intros Hv. destruct (Hfalse Hv) as [-> _]. cbn in C2.
    destruct c; [reflexivity|discriminate C2]. }
  rewrite handle_photo_run, (handle_photo_body_run _ _ _ _ _ Hd), Hc, Hrun,
    reply_to_run.
  destruct (bot_reply_to E _ m s) as [[]|e].
  - exists (Returns tt), (n2 ++ [ReplyTo m s]), c.
    split; [trace_simpl; reflexivity|]. trace_simpl.
    rewrite ?P2, ?C2, ?app_nil_r. auto.
  - eexists _, _, c. split; [trace_simpl; reflexivity|]. trace_simpl.
    rewrite ?P2, ?C2, ?app_nil_r. auto.
Qed.

End HandlerRuns.


(** ** base64 *)

Lemma list_ind3 {A} (Q : list A -> Prop) :
  Q [] -> (forall x, Q [x]) -> (forall x y, Q [x; y]) ->
  (forall x y z r, Q r -> Q (x :: y :: z :: r)) ->
  forall l, Q l.
Proof.
  intros H0 H1 H2 H3.
  assert (H : forall l, Q l /\ (forall x, Q (x :: l))
                        /\ (forall x y, Q (x :: y :: l))).
  { induction l as [|a l (IH0 & IH1 & IH2)]; [auto|].
    split; [apply IH1|]. split; [intros x; apply IH2|].
    intros x y. apply H3. exact IH0. }
  intros l. apply H.
Qed.

Lemma b64_index_char i : (i < 64)%N -> b64_index (b64_char i) = Some i.
Proof.
  intros Hi.
  assert (H : forallb (fun n => match b64_index (b64_char (N.of_nat n)) with
                                | Some j => (j =? N.of_nat n)%N
                                | None => false
                                end) (seq 0 64) = true) by (vm_compute; reflexivity).
  rewrite forallb_forall in H.
  specialize (H (N.to_nat i)). rewrite N2Nat.id in H.
  destruct (b64_index (b64_char i)) as [j|].
  - assert (Hj : (j =? i)%N = true) by (apply H; apply in_seq; lia).
    apply N.eqb_eq in Hj. subst. reflexivity.
  - assert (false = true) by (apply H; apply in_seq; lia). discriminate.
Qed.

Lemma b64_char_inj i j :
  (i < 64)%N -> (j < 64)%N -> b64_char i = b64_char j -> i = j.
Proof.
  intros Hi Hj H. apply b64_index_char in Hi. apply b64_index_char in Hj.
  rewrite H in Hi. congruence.
Qed.

Lemma b64_char_not_pad i : (i < 64)%N -> b64_char i <> b64_pad.
Proof.
  intros Hi H. apply b64_index_char in Hi. rewrite H in Hi.
  vm_compute in Hi. discriminate.
Qed.

Lemma to_N_inj x y : Byte.to_N x = Byte.to_N y -> x = y.
Proof.
  intros H. pose proof (Byte.of_to_N x) as Hx. rewrite H, Byte.of_to_N in Hx.
  congruence.
Qed.

Lemma sextets_3 a b c a' b' c' :
  (a / 4 = a' / 4 ->
  (a mod 4) * 16 + b / 16 = (a' mod 4) * 16 + b' / 16 ->
  (b mod 16) * 4 + c / 64 = (b' mod 16) * 4 + c' / 64 ->
  c mod 64 = c' mod 64 ->
  b < 256 -> b' < 256 -> c < 256 -> c' < 256 ->
  a = a' /\ b = b' /\ c = c')%N.
Proof.
  intros H1 H2 H3 H4 Hb Hb' Hc Hc'.
  pose proof (N.div_mod a 4 ltac:(discriminate)) as Da.
  pose proof (N.div_mod a' 4 ltac:(discriminate)) as Da'.
  pose proof (N.div_mod b 16 ltac:(discriminate)) as Db.
  pose proof (N.div_mod b' 16 ltac:(discriminate)) as Db'.
  pose proof (N.div_mod c 64 ltac:(discriminate)) as Dc.
  pose proof (N.div_mod c' 64 ltac:(discriminate)) as Dc'.
  pose proof (N.mod_lt a 4 ltac:(discriminate)).
  pose proof (N.mod_lt a' 4 ltac:(discriminate)).
  pose proof (N.mod_lt b 16 ltac:(discriminate)).
  pose proof (N.mod_lt b' 16 ltac:(discriminate)).
  pose proof (N.mod_lt c 64 ltac:(discriminate)).
  pose proof (N.mod_lt c' 64 ltac:(discriminate)).
  generalize dependent (a / 4)%N. generalize dependent (a mod 4)%N.
  generalize dependent (a' / 4)%N. generalize dependent (a' mod 4)%N.
  generalize dependent (b / 16)%N. generalize dependent (b mod 16)%N.
  generalize dependent (b' / 16)%N. generalize dependent (b' mod 16)%N.
  generalize dependent (c / 64)%N. generalize dependent (c mod 64)%N.
  generalize dependent (c' / 64)%N. generalize dependent (c' mod 64)%N.
  intros. lia.
Qed.

Ltac euclid x k :=
  let D := fresh "D" in
  let M := fresh "M" in
  pose proof (N.div_mod x k ltac:(discriminate)) as D;
  pose proof (N.mod_lt x k ltac:(discriminate)) as M;
  generalize dependent (x / k)%N; generalize dependent (x mod k)%N;
  intros.

Lemma sextets_1 a a' :
  (a / 4 = a' / 4 -> (a mod 4) * 16 = (a' mod 4) * 16 -> a = a')%N.
Proof. intros H1 H2. euclid a 4%N. euclid a' 4%N. lia. Qed.

Lemma sextets_2 a b a' b' :
  (a / 4 = a' / 4 ->
   (a mod 4) * 16 + b / 16 = (a' mod 4) * 16 + b' / 16 ->
   (b mod 16) * 4 = (b' mod 16) * 4 ->
   b < 256 -> b' < 256 ->
   a = a' /\ b = b')%N.
Proof.
  intros H1 H2 H3 Hb Hb'. euclid a 4%N. euclid a' 4%N. euclid b 16%N. euclid b' 16%N.
  lia.
Qed.

Lemma sextet_bounds1 a :
  (a < 256 ->
   a / 4 < 64 /\ a mod 64 < 64
   /\ (a mod 4) * 16 < 64 /\ (a mod 16) * 4 < 64)%N.
Proof.
  intros Ha.
  pose proof (N.mod_lt a 64 ltac:(discriminate)).
  pose proof (N.mod_lt a 16 ltac:(discriminate)).
  generalize dependent (a mod 64)%N. generalize dependent (a mod 16)%N.
  intros. euclid a 4%N. lia.
Qed.

Lemma sextet_bounds2 a b :
  (a < 256 -> b < 256 ->
   (a mod 4) * 16 + b / 16 < 64 /\ (a mod 16) * 4 + b / 64 < 64)%N.
Proof.
  intros Ha Hb.
  pose proof (N.mod_lt a 4 ltac:(discriminate)).
  pose proof (N.mod_lt a 16 ltac:(discriminate)).
  generalize dependent (a mod 4)%N. generalize dependent (a mod 16)%N.
  intros.
  pose proof (N.div_mod b 16 ltac:(discriminate)).
  pose proof (N.div_mod b 64 ltac:(discriminate)).
  generalize dependent (b / 16)%N. generalize dependent (b mod 16)%N.
  generalize dependent (b / 64)%N. generalize dependent (b mod 64)%N.
  intros. lia.
Qed.

Lemma byte_lt x : (Byte.to_N x < 256)%N.
Proof. pose proof (Byte.to_N_bounded x). lia. Qed.

Ltac sextet_bound :=
  solve [apply sextet_bounds1; apply byte_lt
        | apply sextet_bounds2; apply byte_lt].

Ltac pad_clash :=
  match goal with
  | H : b64_char _ = b64_pad |- _ =>
      apply b64_char_not_pad in H; [contradiction | sextet_bound]
  | H : b64_pad = b64_char _ |- _ =>
      symmetry in H; apply b64_char_not_pad in H;
      [contradiction | sextet_bound]
  end.

Ltac same_sextets :=
  repeat match goal with
         | H : b64_char _ = b64_char _ |- _ =>
             apply b64_char_inj in H; [| sextet_bound ..]
         end.

(** X25. The base64 text determines the bytes: two buffers with the
    same encoding are the same buffer, so that the image field of the
    POST stands for exactly the JPEG bytes the uploader produced. *)
Theorem b64encode_injective a b : b64encode a = b64encode b -> a = b.
Proof.
  revert b. pattern a. apply list_ind3; clear a.
  - intros [|x' [|y' [|z' r']]] H; cbn [b64encode app] in H;
      try discriminate H; reflexivity.
  - intros x [|x' [|y' [|z' r']]] H; cbn [b64encode app] in H;
      try discriminate H; injection H; clear H; intros; try pad_clash;
      same_sextets.
    f_equal. apply to_N_inj. apply sextets_1; assumption.
  - intros x y [|x' [|y' [|z' r']]] H; cbn [b64encode app] in H;
      try discriminate H; injection H; clear H; intros; try pad_clash;
      same_sextets.
    match goal with
    | H1 : (_ / 4 = _ / 4)%N, H2 : (_ + _ / 16 = _)%N, H3 : (_ * 4 = _)%N |- _ =>
        destruct (sextets_2 _ _ _ _ H1 H2 H3 (byte_lt _) (byte_lt _))
          as [Ha Hb]
    end.
    apply to_N_inj in Ha, Hb. subst. reflexivity.
  - intros x y z r IH [|x' [|y' [|z' r']]] H; cbn [b64encode app] in H;
      try discriminate H; injection H; clear H; intros; try pad_clash;
      same_sextets.
    match goal with
    | H1 : (_ / 4 = _ / 4)%N, H2 : (_ + _ / 16 = _)%N,
      H3 : (_ + _ / 64 = _)%N, H4 : (_ mod 64 = _)%N |- _ =>
        destruct (sextets_3 _ _ _ _ _ _ H1 H2 H3 H4
                    (byte_lt _) (byte_lt _) (byte_lt _) (byte_lt _))
          as (Ha & Hb & Hc)
    end.
    apply to_N_inj in Ha, Hb, Hc. subst. f_equal. f_equal. f_equal.
    apply IH. assumption.
Qed.

Lemma b64_char_ascii i : (b64_char i < 128)%N.
Proof.
  assert (H : forallb (fun c => (c <? 128)%N) b64_alphabet = true)
    by (vm_compute; reflexivity).
  rewrite forallb_forall in H. unfold b64_char.
  destruct (nth_in_or_default (N.to_nat i) b64_alphabet 0%N) as [Hin | ->].
  - apply N.ltb_lt, H, Hin.
  - reflexivity.
Qed.

(** X26. The encoding of [n] bytes has [4 * ceil(n / 3)] characters,
    all of them ASCII: the [decode('utf-8')] of line 38 cannot fail and
    yields the same characters. *)
Theorem b64encode_ascii data :
  List.length (b64encode data) = (4 * ((List.length data + 2) / 3))%nat
  /\ Forall (fun c => (c < 128)%N) (b64encode data).
Proof.
  pattern data. apply list_ind3; clear data.
  - split; [reflexivity|constructor].
  - intros x. split; [reflexivity|].
    cbn [b64encode]. repeat constructor; apply b64_char_ascii.
  - intros x y. split; [reflexivity|].
    cbn [b64encode]. repeat constructor; apply b64_char_ascii.
  - intros x y z r [IHl IHa]. split.
    + cbn [b64encode app List.length]. rewrite IHl.
      replace (S (S (S (List.length r))) + 2)%nat
        with (List.length r + 2 + 1 * 3)%nat by lia.
      rewrite Nat.div_add by discriminate. lia.
    + cbn [b64encode app]. repeat (constructor; [apply b64_char_ascii|]).
      exact IHa.
Qed.

(** ** The further properties at work *)

Lemma analyze_without_budget_witness :
  analyze_image_openai Mock.happy (PStr Mock.url_xy) 0 2 []
  = (Returns None, []).
Proof. apply analyze_without_budget. lia. Defined.


Lemma analyze_refused_delay_raises_witness :
  exists new,
    analyze_image_openai Mock.mute (PStr Mock.url_xy) 3 10000000000 []
    = (Raises OverflowError, [] ++ new)
    /\ creates new = [PStr Mock.url_xy] /\ sleeps new = [].
Proof.
  apply (analyze_refused_delay_raises Mock.mute (PStr Mock.url_xy) 3
           10000000000 []);
    [right; unfold max_sleep; lia | lia | reflexivity].
Defined.



Lemma analyze_result_sound_witness :
  strip (lit "a cat.") = lit "a cat."
  /\ exists n s,
      (n < Z.to_nat 3)%nat
      /\ text_of (chat_completions_create Mock.happy
                    (List.length (creates []) + n) (PStr Mock.url_xy))
         = Some s
      /\ lit "a cat." = strip s
      /\ forall i, (i < n)%nat ->
           text_of (chat_completions_create Mock.happy
                      (List.length (creates []) + i) (PStr Mock.url_xy))
           = None.
Proof.
  apply (analyze_result_sound Mock.happy (PStr Mock.url_xy) 3 2 []
           (Some (lit "a cat."))
           (Mock.failed_call 1 ++ Mock.failed_call 2
              ++ [Log INFO (SendingUrl (PStr Mock.url_xy));
                  ChatCreate (PStr Mock.url_xy);
                  Log INFO (VisionResponse
                              (Mock.completion (lit " a cat. ")))])).
  reflexivity.
Defined.

Lemma upload_value_comes_from_host_witness :
  exists out r,
    reencode (P := Mock.pil) Mock.png_buffer = Returns out
    /\ requests_post Mock.happy (List.length (posts Mock.downloaded))
                     imgbb_url (payload_of Mock.happy out)
       = Returns r
    /\ status_code r = 200
    /\ data_url r = Returns (PStr Mock.url_xy).
Proof.
  apply (upload_value_comes_from_host (P := Mock.pil) Mock.happy
           Mock.png_buffer Mock.downloaded (PStr Mock.url_xy) Mock.uploaded).
  - reflexivity.
  - discriminate.
Defined.

Lemma unencodable_upload_skips_host_witness :
  exists new,
    upload_image_to_imgbb (P := Mock.pil) Mock.garbage Mock.garbage_buffer []
    = (Returns PNone, [] ++ new)
    /\ new = [Log ERROR (ImgbbException
                           (LibraryError (lit "UnidentifiedImageError")))]
    /\ posts new = [].
Proof.
  apply (unencodable_upload_skips_host (P := Mock.pil)). reflexivity.
Defined.

Lemma upload_unparsable_body_witness :
  exists new,
    upload_image_to_imgbb (P := Mock.pil) Mock2.unparsable Mock.png_buffer []
    = (Returns PNone, [] ++ new)
    /\ posts new = [(imgbb_url, payload_of Mock2.unparsable [xff; x00; x2a])]
    /\ In (Log ERROR (ImgbbException (LibraryError (lit "JSONDecodeError"))))
          new.
Proof.
  apply (upload_unparsable_body (P := Mock.pil) Mock2.unparsable
           Mock.png_buffer [xff; x00; x2a] [] Mock2.html_page);
    reflexivity.
Defined.

Lemma upload_returns_any_data_url_witness :
  exists new,
    upload_image_to_imgbb (P := Mock.pil) Mock2.without_url Mock.png_buffer []
    = (Returns PNone, [] ++ new)
    /\ posts new = [(imgbb_url, payload_of Mock2.without_url [xff; x00; x2a])].
Proof.
  apply (upload_returns_any_data_url (P := Mock.pil) Mock2.without_url
           Mock.png_buffer [xff; x00; x2a] [] Mock2.null_url);
    reflexivity.
Defined.

Lemma handle_photo_returns_witness :
  exists new s,
    handle_photo (P := Mock.pil) Mock.happy Mock.msg []
    = (Returns tt, [] ++ new)
    /\ reply_text s /\ replies new = [(Mock.msg, s)].
Proof.
  apply (handle_photo_returns (P := Mock.pil) Mock.happy Mock.msg []).
  intros k s. reflexivity.
Defined.

Lemma handle_photo_uses_last_variant_witness :
  exists o new,
    handle_photo (P := Mock.pil) Mock.happy Mock.msg [] = (o, [] ++ new)
    /\ get_files new = [lit "large"].
Proof.
  apply (handle_photo_uses_last_variant (P := Mock.pil) Mock.happy Mock.msg []
           [{| file_id := lit "small" |}] {| file_id := lit "large" |}).
  reflexivity.
Defined.

Lemma handle_photo_without_photo_witness :
  handle_photo (P := Mock.pil) Mock.happy Mock2.empty_msg []
  = (bot_reply_to Mock.happy (List.length (replies [])) Mock2.empty_msg
                  msg_generic_failure,
     [] ++ [Log ERROR (HandlerError IndexError);
            ReplyTo Mock2.empty_msg msg_generic_failure]).
Proof.
  apply (handle_photo_without_photo (P := Mock.pil)). reflexivity.
Defined.

Lemma handle_photo_download_fails_witness :
  exists pre,
    Mock.downloaded = [] ++ pre
    /\ replies pre = [] /\ posts pre = [] /\ creates pre = []
    /\ handle_photo (P := Mock.pil) Mock.no_download Mock.msg []
       = (bot_reply_to Mock.no_download (List.length (replies [])) Mock.msg
                       msg_generic_failure,
          Mock.downloaded
            ++ [Log ERROR (HandlerError Mock.network_error);
                ReplyTo Mock.msg msg_generic_failure]).
Proof.
  apply (handle_photo_download_fails (P := Mock.pil) Mock.no_download
           Mock.msg [] Mock.network_error Mock.downloaded).
  reflexivity.
Defined.

Lemma handle_photo_upload_fails_witness :
  exists o rest,
    handle_photo (P := Mock.pil) Mock.refused Mock.msg []
    = (o, Mock2.refused_upload ++ ReplyTo Mock.msg msg_upload_failure :: rest)
    /\ replies Mock2.refused_upload = replies []
    /\ creates (Mock2.refused_upload
                  ++ ReplyTo Mock.msg msg_upload_failure :: rest)
       = creates []
    /\ (bot_reply_to Mock.refused (List.length (replies [])) Mock.msg
                     msg_upload_failure
        = Returns tt ->
        o = Returns tt /\ rest = []).
Proof.
  apply (handle_photo_upload_fails (P := Mock.pil) Mock.refused Mock.msg []
           Mock.png_buffer Mock.downloaded Mock.png_buffer Mock.downloaded
           PNone Mock2.refused_upload);
    reflexivity.
Defined.

Lemma handle_photo_analysis_gives_up_witness :
  exists o rest,
    handle_photo (P := Mock.pil) Mock.mute Mock.msg []
    = (o, Mock2.given_up ++ ReplyTo Mock.msg msg_analysis_failure :: rest)
    /\ replies Mock2.given_up = replies []
    /\ (bot_reply_to Mock.mute (List.length (replies [])) Mock.msg
                     msg_analysis_failure
        = Returns tt ->
        o = Returns tt /\ rest = []).
Proof.
  apply (handle_photo_analysis_gives_up (P := Mock.pil) Mock.mute Mock.msg []
           Mock.png_buffer Mock.downloaded Mock.png_buffer Mock.downloaded
           (PStr Mock.url_xy) Mock.uploaded Mock2.given_up);
    reflexivity.
Defined.

Lemma handle_photo_webp_conversion_fails_witness :
  exists o rest,
    handle_photo (P := Mock2.pil) Mock2.truncated_webp_photo Mock.msg []
    = (o, Mock.downloaded
            ++ Log ERROR (FormatError
                 (LibraryError (lit "OSError: image file is truncated")))
               :: ReplyTo Mock.msg msg_format_failure :: rest)
    /\ posts rest = [] /\ creates rest = []
    /\ (bot_reply_to Mock2.truncated_webp_photo
                     (List.length (replies Mock.downloaded)) Mock.msg
                     msg_format_failure
        = Returns tt ->
        o = Returns tt /\ rest = []).
Proof.
  apply (handle_photo_webp_conversion_fails (P := Mock2.pil)
           Mock2.truncated_webp_photo Mock.msg [] Mock2.truncated_webp
           Mock.downloaded
           {| format := Some WEBP; mode := lit "RGBA"; pixels := [] |}).
  - reflexivity.
  - reflexivity.
  - reflexivity.
  - left. reflexivity.
Defined.

Lemma handle_photo_unencodable_is_upload_failure_witness :
  exists o rest,
    handle_photo (P := Mock2.pil) Mock2.truncated_png_photo Mock.msg []
    = (o, Mock.downloaded
            ++ Log ERROR (ImgbbException
                 (LibraryError (lit "OSError: image file is truncated")))
               :: ReplyTo Mock.msg msg_upload_failure :: rest)
    /\ posts rest = [] /\ creates rest = []
    /\ (bot_reply_to Mock2.truncated_png_photo
                     (List.length (replies Mock.downloaded)) Mock.msg
                     msg_upload_failure
        = Returns tt ->
        o = Returns tt /\ rest = []).
Proof.
  apply (handle_photo_unencodable_is_upload_failure (P := Mock2.pil)
           Mock2.truncated_png_photo Mock.msg [] Mock2.truncated_png
           Mock.downloaded
           {| format := Some PNG; mode := lit "RGBA"; pixels := [] |});
    reflexivity.
Defined.

Lemma handle_photo_blank_answer_witness :
  exists o new,
    handle_photo (P := Mock.pil) Mock.blank Mock.msg []
    = (o, Mock.uploaded ++ new)
    /\ creates new = [PStr Mock.url_xy] /\ sleeps new = []
    /\ (replies new = [(Mock.msg, msg_analysis_failure)]
        \/ replies new = [(Mock.msg, msg_analysis_failure);
                          (Mock.msg, msg_generic_failure)])
    /\ (bot_reply_to Mock.blank (List.length (replies [])) Mock.msg
                     msg_analysis_failure
        = Returns tt ->
        o = Returns tt /\ replies new = [(Mock.msg, msg_analysis_failure)]).
Proof.
  apply (handle_photo_blank_answer (P := Mock.pil) Mock.blank Mock.msg []
           Mock.png_buffer Mock.downloaded Mock.png_buffer Mock.downloaded
           (PStr Mock.url_xy) Mock.uploaded (lit "   "));
    reflexivity.
Defined.

Lemma handle_photo_after_upload_witness :
  exists o new c,
    handle_photo (P := Mock.pil) Mock.happy Mock.msg []
    = (o, Mock.uploaded ++ new)
    /\ posts new = []
    /\ creates new = repeat (PStr Mock.url_xy) c /\ (c <= 3)%nat
    /\ (truthy (PStr Mock.url_xy) = false -> c = 0%nat).
Proof.
  apply (handle_photo_after_upload (P := Mock.pil) Mock.happy Mock.msg []
           Mock.png_buffer Mock.downloaded Mock.png_buffer Mock.downloaded
           (PStr Mock.url_xy) Mock.uploaded);
    reflexivity.
Defined.

Lemma b64encode_injective_witness :
  [xff; x00; x2a] = [xff; x00; x2a].
Proof. apply b64encode_injective. reflexivity. Defined.

(** X27. [strip] removes whitespace at the two ends and nothing else: a
    string is a run of whitespace, its stripped part and a run of
    whitespace, and the stripped part is empty or begins and ends with a
    character that is not whitespace. *)
Theorem strip_spec s :
  (exists pre post,
     s = pre ++ strip s ++ post
     /\ all_space pre = true /\ all_space post = true)
  /\ (strip s = []
      \/ exists c mid d,
           (strip s = c :: mid /\ isspace c = false)
           /\ exists init, strip s = init ++ [d] /\ isspace d = false).
Proof. split; [apply strip_decomp | apply strip_ends]. Qed.

(** A truncated PNG opens and fails to decode inside the uploader: the
    reply is the upload-failure message, and the claim C7 as stated
    fails. *)
Lemma truncated_png_reaches_uploader :
  decode_fails (P := Mock2.pil) Mock2.truncated_png
               (LibraryError (lit "OSError: image file is truncated"))
  /\ handle_photo (P := Mock2.pil) Mock2.truncated_png_photo Mock.msg []
     = (Returns tt,
        Mock.downloaded
          ++ [Log ERROR (ImgbbException
                (LibraryError (lit "OSError: image file is truncated")));
              ReplyTo Mock.msg msg_upload_failure])
  /\ ~ undecodable_never_uploaded (P := Mock2.pil) Mock2.truncated_png_photo.
Proof.
  assert (Hfail : decode_fails (P := Mock2.pil) Mock2.truncated_png
                    (LibraryError (lit "OSError: image file is truncated"))).
  { right. eexists. split; reflexivity. }
  split; [exact Hfail|]. split; [reflexivity|].
  intros H.
  destruct (H Mock.msg [] Mock2.truncated_png Mock.downloaded _ eq_refl Hfail)
    as (o & rest & Hrun).
  discriminate Hrun.
Qed.
